(** * SplitDelta: splitting an element of the model tree, and undoing it

    A shallow embedding of
    [packages/ckeditor5-engine/src/model/delta/splitdelta.js]:
    the [SplitDelta] class (its [type], [position], [getReversed],
    [_cloneOperation], [_moveOperation], [_reverseDeltaClass], [className]
    and [_priority] members) and the batch method [split].

    JavaScript objects that are mutated after they have been shared
    (operations, deltas) live in a store and are named by their index in it;
    the batch method runs in a state-and-exception monad over that store, the
    batch's delta list and the document.  A thrown exception keeps the state
    reached so far, as in JavaScript. *)

From Stdlib Require Import ZArith.
From stdpp Require Import base option list strings gmap.

Set Warnings "-register-all".

(** ** The model tree *)

(** Modelled from the spec: the tree collaborator ([element.js], [text.js]),
    whose classes the unit only imports.  An element is "a named tree node
    with an unordered attribute mapping (keys unique) and an ordered sequence
    of children".  Every child occupies one offset (an element, or one
    character of text), so that [maxOffset], "the sum of child sizes", is the
    number of children. *)
Inductive node :=
| Text (data : string) (attrs : gmap string string)
| Element (name : string) (attrs : gmap string string) (children : list node).

(** Modelled from the spec: the accessors of a node, its "attribute
    snapshot", its children and its "child-count ([maxOffset])". *)
Definition getAttributes (n : node) : gmap string string :=
  match n with
  | Text _ a => a
  | Element _ a _ => a
  end.

Definition getChildren (n : node) : list node :=
  match n with
  | Text _ _ => []
  | Element _ _ ch => ch
  end.

Definition maxOffset (n : node) : nat := length (getChildren n).

(** Modelled from the spec: the roots of a document ([document.js]), the
    edited content and the graveyard that receives removed nodes. *)
Inductive rootName := mainRoot | graveyardRoot.

#[global] Instance rootName_eq_dec : EqDecision rootName.
Proof. solve_decision. Defined.

(** Modelled from the spec: [position.js].  A position is "a point between
    children of some parent element", resolvable "to a parent element and an
    integer offset": the root it lives in, the path of child indices from
    that root down to the parent, and the offset in the parent. *)
Record position := Position {
  pos_root : rootName;
  parentPath : list nat;
  offset : nat
}.

#[global] Instance position_eq_dec : EqDecision position.
Proof. solve_decision. Defined.

(** Modelled from the spec: "tree navigation", the node found by following
    a path of child indices. *)
Fixpoint getNodeByPath (path : list nat) (n : node) : option node :=
  match path with
  | [] => Some n
  | i :: rest =>
      match n with
      | Element _ _ ch => ch !! i ≫= getNodeByPath rest
      | Text _ _ => None
      end
  end.

(** Modelled from the spec: the in-place mutation of the tree.
    [modifyChildren path f n] rewrites with [f] the child list of the
    element found at [path] below [n]; it fails when the path does not lead
    to an element or when [f] fails.  [insertChildren] and [removeChildren]
    are the two rewritings that operations use; both fail outside the child
    list. *)
Fixpoint modifyChildren (path : list nat)
    (f : list node → option (list node)) (n : node) : option node :=
  match n with
  | Text _ _ => None
  | Element nm a ch =>
      match path with
      | [] => Element nm a <$> f ch
      | i :: rest =>
          c ← ch !! i;
          c' ← modifyChildren rest f c;
          Some (Element nm a (<[i := c']> ch))
      end
  end.

Definition insertChildren (off : nat) (nodes ch : list node)
    : option (list node) :=
  if decide (off ≤ length ch)
  then Some (take off ch ++ nodes ++ drop off ch)
  else None.

Definition removeChildren (off howMany : nat) (ch : list node)
    : option (list node) :=
  if decide (off + howMany ≤ length ch)
  then Some (take off ch ++ drop (off + howMany) ch)
  else None.

(** [unsnoc l] separates the last item of a path from what precedes it. *)
Fixpoint unsnoc {A} (l : list A) : option (list A * A) :=
  match l with
  | [] => None
  | x :: l' =>
      match unsnoc l' with
      | None => Some ([], x)
      | Some (front, y) => Some (x :: front, y)
      end
  end.

(** [stripPrefix p l] is what is left of [l] after its prefix [p]. *)
Fixpoint stripPrefix (p l : list nat) : option (list nat) :=
  match p, l with
  | [], _ => Some l
  | _ :: _, [] => None
  | x :: p', y :: l' => if decide (x = y) then stripPrefix p' l' else None
  end.

(** Modelled from the spec: the "positional/offset arithmetic library".
    Where a position ends up after [howMany] nodes were deleted at [del];
    a position inside the deleted nodes has no image. *)
Definition getTransformedByDeletion (this del : position) (howMany : nat)
    : option position :=
  if decide (pos_root this = pos_root del) then
    if decide (parentPath del = parentPath this) then
      if decide (offset del < offset this) then
        if decide (offset this < offset del + howMany)
        then Some (Position (pos_root this) (parentPath this) (offset del))
        else Some (Position (pos_root this) (parentPath this)
                     (offset this - howMany))
      else Some this
    else
      match stripPrefix (parentPath del) (parentPath this) with
      | Some (j :: rest) =>
          if decide (offset del ≤ j) then
            if decide (j < offset del + howMany) then None
            else Some (Position (pos_root this)
                         (parentPath del ++ (j - howMany) :: rest)
                         (offset this))
          else Some this
      | _ => Some this
      end
  else Some this.

(** Modelled from the spec: the "positional/offset arithmetic library".
    Where a position ends up after [howMany] nodes were inserted at [ins]. *)
Definition getTransformedByInsertion (this ins : position) (howMany : nat)
    : position :=
  if decide (pos_root this = pos_root ins) then
    if decide (parentPath ins = parentPath this) then
      if decide (offset ins < offset this)
      then Position (pos_root this) (parentPath this) (offset this + howMany)
      else this
    else
      match stripPrefix (parentPath ins) (parentPath this) with
      | Some (j :: rest) =>
          if decide (offset ins ≤ j)
          then Position (pos_root this)
                 (parentPath ins ++ (j + howMany) :: rest) (offset this)
          else this
      | _ => this
      end
  else this.

(** ** Operations *)

(** Modelled from the spec: the operation primitives ([insertoperation.js],
    [moveoperation.js] and the remove and reinsert operations derived from
    it, [nooperation.js]).  A remove operation is a move into the graveyard
    and a reinsert operation a move out of it. *)
Inductive moveClass := MoveOp | RemoveOp | ReinsertOp.

Inductive opKind :=
| InsertOperation (position : position) (nodes : list node)
| MoveOperation (cls : moveClass) (sourcePosition : position)
    (howMany : Z) (targetPosition : position)
| NoOperation.

(** Modelled from the spec: an operation object ([operation.js]), "tagged
    with the document version it expects to apply against".  [isSticky] is
    the property that [split] and [getReversed] assign; an object that was
    never assigned it reads as not sticky. *)
Record operation := Operation {
  kind : opKind;
  baseVersion : nat;
  isSticky : bool
}.

Definition set_isSticky (b : bool) (o : operation) : operation :=
  Operation (kind o) (baseVersion o) b.

Definition set_baseVersion (v : nat) (o : operation) : operation :=
  Operation (kind o) v (isSticky o).

(** ** Deltas *)

(** The class of this unit and the class it names as its reverse. *)
Inductive deltaClass := SplitDelta | MergeDelta.

(** Modelled from the spec: a delta object ([delta.js]), "an ordered
    sequence of operations": its class and its [operations] array, which
    holds references to operation objects. *)
Record delta := Delta {
  dclass : deltaClass;
  operations : list nat
}.

(** ** Document *)

(** Modelled from the spec: the document ([document.js]), its two trees and
    its "monotonically increasing document version counter". *)
Record document := Document {
  root : node;
  graveyard : node;
  version : nat
}.

Definition getRoot (d : document) (r : rootName) : node :=
  match r with
  | mainRoot => root d
  | graveyardRoot => graveyard d
  end.

Definition setRoot (d : document) (r : rootName) (n : node) : document :=
  match r with
  | mainRoot => Document n (graveyard d) (version d)
  | graveyardRoot => Document (root d) n (version d)
  end.

(** Modelled from the spec: what an operation does to the tree.  An insert
    places its nodes at its position; a move relocates the [howMany] nodes
    that follow its source position to its target position, the target being
    read after the nodes have left their place. *)
Definition execute (k : opKind) (d : document) : option document :=
  match k with
  | InsertOperation p nodes =>
      r ← modifyChildren (parentPath p) (insertChildren (offset p) nodes)
            (getRoot d (pos_root p));
      Some (setRoot d (pos_root p) r)
  | MoveOperation _ src howMany tgt =>
      if decide (howMany < 0)%Z then None else
      let n := Z.to_nat howMany in
      srcEl ← getNodeByPath (parentPath src) (getRoot d (pos_root src));
      let nodes := take n (drop (offset src) (getChildren srcEl)) in
      r1 ← modifyChildren (parentPath src) (removeChildren (offset src) n)
             (getRoot d (pos_root src));
      let d1 := setRoot d (pos_root src) r1 in
      tgt' ← getTransformedByDeletion tgt src n;
      r2 ← modifyChildren (parentPath tgt')
             (insertChildren (offset tgt') nodes) (getRoot d1 (pos_root tgt'));
      Some (setRoot d1 (pos_root tgt') r2)
  | NoOperation => Some d
  end.

(** Modelled from the spec: where a removal puts the nodes, the start of
    the graveyard. *)
Definition graveyardPosition : position := Position graveyardRoot [] 0.

(** Modelled from the spec: the inverse of an operation.  Undoing an insert
    removes the inserted nodes; undoing a move moves the nodes back from
    where they arrived to where they left; undoing a removal reinserts. *)
Definition reversedClass (c : moveClass) : moveClass :=
  match c with
  | MoveOp => MoveOp
  | RemoveOp => ReinsertOp
  | ReinsertOp => RemoveOp
  end.

Definition reversedKind (k : opKind) : opKind :=
  match k with
  | InsertOperation p nodes =>
      MoveOperation RemoveOp p (Z.of_nat (length nodes)) graveyardPosition
  | MoveOperation c src howMany tgt =>
      let n := Z.to_nat howMany in
      MoveOperation (reversedClass c)
        (default tgt (getTransformedByDeletion tgt src n))
        howMany
        (getTransformedByInsertion src tgt n)
  | NoOperation => NoOperation
  end.

(** Modelled from the spec: [getReversed] of an operation.  The inverse is
    a new operation object, built by its constructor: it expects the next
    version and is not sticky. *)
Definition Operation_getReversed (o : operation) : operation :=
  Operation (reversedKind (kind o)) (S (baseVersion o)) false.

(** ** The store, the batch and the monad of batch methods *)

(** The calls a batch method makes on its collaborators, in the order it
    makes them. *)
Inductive event :=
| EvAddDelta (d : nat)
| EvAddOperation (d op : nat)
| EvApplyOperation (op : nat).

(** [ops] and [dls] hold the operation and delta objects, a reference being
    an index; [batch_deltas] is the batch's list of deltas ([this.deltas]),
    [doc] the batch's document ([this.document]). *)
Record state := State {
  ops : list operation;
  dls : list delta;
  batch_deltas : list nat;
  doc : document;
  trace : list event
}.

Inductive error :=
| CKEditorError (message : string)
| VersionMismatch
| InvalidOperation
| TypeError.

Inductive result (A : Type) :=
| Ok (a : A)
| Throw (e : error).
Arguments Ok {A} a.
Arguments Throw {A} e.

Definition M (A : Type) : Type := state → result A * state.

#[global] Instance M_ret : MRet M := λ A a s, (Ok a, s).

#[global] Instance M_bind : MBind M := λ A B f m s,
  match m s with
  | (Ok a, s') => f a s'
  | (Throw e, s') => (Throw e, s')
  end.

Definition throw {A} (e : error) : M A := λ s, (Throw e, s).

(** What a batch method hands back: a reference to the batch itself or to a
    delta. *)
Inductive jsref :=
| BatchRef
| DeltaRef (d : nat).

(** [new] of an operation and of a delta: the object gets the next free
    reference. *)
Definition newOperation (o : operation) : M nat := λ s,
  (Ok (length (ops s)),
   State (ops s ++ [o]) (dls s) (batch_deltas s) (doc s) (trace s)).

Definition newDelta (c : deltaClass) : M nat := λ s,
  (Ok (length (dls s)),
   State (ops s) (dls s ++ [Delta c []]) (batch_deltas s) (doc s) (trace s)).

Definition readDelta (d : nat) : M delta := λ s,
  match dls s !! d with
  | Some δ => (Ok δ, s)
  | None => (Throw TypeError, s)
  end.

(** [op.isSticky = b]. *)
Definition assign_isSticky (r : nat) (b : bool) : M unit := λ s,
  match ops s !! r with
  | Some o =>
      (Ok (), State (<[r := set_isSticky b o]> (ops s)) (dls s)
                (batch_deltas s) (doc s) (trace s))
  | None => (Throw TypeError, s)
  end.

(** Modelled from the spec: [Batch.addDelta] ([batch.js]); the delta joins
    the deltas of the batch. *)
Definition Batch_addDelta (d : nat) : M unit := λ s,
  (Ok (), State (ops s) (dls s) (batch_deltas s ++ [d]) (doc s)
            (trace s ++ [EvAddDelta d])).

(** Modelled from the spec: [Delta.addOperation] ([delta.js]), which
    "appends an operation". *)
Definition Delta_addOperation (d op : nat) : M unit := λ s,
  match dls s !! d with
  | Some δ =>
      (Ok (), State (ops s)
                (<[d := Delta (dclass δ) (operations δ ++ [op])]> (dls s))
                (batch_deltas s) (doc s) (trace s ++ [EvAddOperation d op]))
  | None => (Throw TypeError, s)
  end.

(** Modelled from the spec: [this.document.version], the "monotonic
    counter" of the document. *)
Definition Document_version : M nat := λ s, (Ok (version (doc s)), s).

(** Modelled from the spec: the document after one more operation, its
    version "incremented by each applied operation". *)
Definition nextVersion (d : document) : document :=
  Document (root d) (graveyard d) (S (version d)).

(** Modelled from the spec: [Document.applyOperation] ([document.js]),
    which "fails if [op.baseVersion != currentVersion()]".  [applied] is its
    effect on the document. *)
Definition applied (o : operation) (d : document) : result document :=
  if decide (baseVersion o = version d) then
    match execute (kind o) d with
    | Some d' => Ok (nextVersion d')
    | None => Throw InvalidOperation
    end
  else Throw VersionMismatch.

Definition Document_applyOperation (op : nat) : M unit := λ s,
  match ops s !! op with
  | Some o =>
      match applied o (doc s) with
      | Ok d' =>
          (Ok (), State (ops s) (dls s) (batch_deltas s) d'
                    (trace s ++ [EvApplyOperation op]))
      | Throw e => (Throw e, s)
      end
  | None => (Throw TypeError, s)
  end.

(** Modelled from the spec: [position.parent], the element the position
    points into, and [element.name]. *)
Definition Position_parent (p : position) : M node := λ s,
  match getNodeByPath (parentPath p) (getRoot (doc s) (pos_root p)) with
  | Some (Element nm a ch) => (Ok (Element nm a ch), s)
  | _ => (Throw TypeError, s)
  end.

Definition Node_name (n : node) : string :=
  match n with
  | Element nm _ _ => nm
  | Text _ _ => ""
  end.

(** ** The [SplitDelta] class *)

(** [get type()]. *)
Definition SplitDelta_type : string := "split".

(** [static get className()]. *)
Definition SplitDelta_className : string := "engine.model.delta.SplitDelta".

(** [static get _priority()]. *)
Definition SplitDelta__priority : Z := 5.

(** [get _reverseDeltaClass()]. *)
Definition SplitDelta__reverseDeltaClass : deltaClass := MergeDelta.

(** Dispatch of the getters on the class of a delta object.  Modelled from
    the spec for [MergeDelta] ([mergedelta.js]): its reverse class is
    [SplitDelta]. *)
Definition Delta_type (δ : delta) : string :=
  match dclass δ with
  | SplitDelta => SplitDelta_type
  | MergeDelta => "merge"
  end.

Definition Delta__reverseDeltaClass (δ : delta) : deltaClass :=
  match dclass δ with
  | SplitDelta => SplitDelta__reverseDeltaClass
  | MergeDelta => SplitDelta
  end.

(** [get _cloneOperation()]: [this.operations[ 0 ] || null]. *)
Definition SplitDelta__cloneOperation (δ : delta) : option nat :=
  operations δ !! 0.

(** [get _moveOperation()]: [this.operations[ 1 ] || null]. *)
Definition SplitDelta__moveOperation (δ : delta) : option nat :=
  operations δ !! 1.

(** The value of a property that holds a position. *)
Inductive jsPosition :=
| js_null
| js_undefined
| js_pos (p : position).

(** [op.sourcePosition]: move operations have the property, the others do
    not. *)
Definition Operation_sourcePosition (o : operation) : jsPosition :=
  match kind o with
  | MoveOperation _ src _ _ => js_pos src
  | _ => js_undefined
  end.

(** [get position()]:
    [this._moveOperation ? this._moveOperation.sourcePosition : null]. *)
Definition SplitDelta_position (s : state) (δ : delta) : jsPosition :=
  match SplitDelta__moveOperation δ with
  | Some r =>
      match ops s !! r with
      | Some o => Operation_sourcePosition o
      | None => js_undefined
      end
  | None => js_null
  end.

(** Modelled from the spec: the position of a [MergeDelta]
    ([mergedelta.js]), the source position of its second operation (the
    removal), "null if the delta holds no operations". *)
Definition MergeDelta_position (s : state) (δ : delta) : jsPosition :=
  match operations δ !! 1 with
  | Some r =>
      match ops s !! r with
      | Some o => Operation_sourcePosition o
      | None => js_undefined
      end
  | None => js_null
  end.

Definition Delta_position (s : state) (δ : delta) : jsPosition :=
  match dclass δ with
  | SplitDelta => SplitDelta_position s δ
  | MergeDelta => MergeDelta_position s δ
  end.

(** Modelled from the spec: the operations of a reversed delta, "the
    inverses of this delta's operations, in reverse order".  They expect the
    versions that follow the last operation of the delta, so that they can
    be applied right after it. *)
Definition reversedOperations (os : list operation) : list operation :=
  let top := default 0 (baseVersion <$> last os) in
  imap (λ i o, set_baseVersion (top + i + 1) (Operation_getReversed o))
    (reverse os).

(** Modelled from the spec: [Delta.getReversed] ([delta.js]), which
    "produces a new delta whose operations are the inverses of this delta's
    operations, in reverse order".  The new delta is of the declared reverse
    class, and the inverses are new operation objects. *)
Definition Delta_getReversed (d : nat) : M nat := λ s,
  match dls s !! d with
  | None => (Throw TypeError, s)
  | Some δ =>
      match mapM (λ r, ops s !! r) (operations δ) with
      | None => (Throw TypeError, s)
      | Some os =>
          let inv := reversedOperations os in
          (Ok (length (dls s)),
           State (ops s ++ inv)
             (dls s ++ [Delta (Delta__reverseDeltaClass δ)
                          (seq (length (ops s)) (length inv))])
             (batch_deltas s) (doc s) (trace s))
      end
  end.

(** [getReversed()] of [SplitDelta]:
<<
    const delta = super.getReversed();
    if ( delta.operations.length > 0 ) {
        delta.operations[ 0 ].isSticky = true;
    }
    return delta;
>> *)
Definition SplitDelta_getReversed (d : nat) : M nat :=
  delta ← Delta_getReversed d;
  δ ← readDelta delta;
  match operations δ with
  | first :: _ => assign_isSticky first true;; mret delta
  | [] => mret delta
  end.

(** ** The batch method [split] *)

Definition batch_split_root : error :=
  CKEditorError "batch-split-root: Root element can not be split.".

(** [register( 'split', function( position ) { ... } )].  An element of the
    tree is known by its place: [splitElement] is the element at
    [parentPath position], it is a root ([!splitElement.parent]) when that
    path is empty, and otherwise it is child [i] of the element at path
    [pp].  [copy] is put at child [i + 1] of that element by the insert
    operation, which is where [Position.createFromParentAndOffset( copy, 0 )]
    finds it; [splitElement.maxOffset] is read after the insertion. *)
Definition split (position : position) : M jsref :=
  delta ← newDelta SplitDelta;
  Batch_addDelta delta;;
  splitElement ← Position_parent position;
  match unsnoc (parentPath position) with
  | None => throw batch_split_root
  | Some (pp, i) =>
      let copy :=
        Element (Node_name splitElement) (getAttributes splitElement) [] in
      v ← Document_version;
      insert ← newOperation
        (Operation
           (InsertOperation (Position (pos_root position) pp (S i)) [copy])
           v false);
      Delta_addOperation delta insert;;
      Document_applyOperation insert;;
      splitElement' ← Position_parent position;
      v' ← Document_version;
      move ← newOperation
        (Operation
           (MoveOperation MoveOp position
              (Z.of_nat (maxOffset splitElement') - Z.of_nat (offset position))
              (Position (pos_root position) (pp ++ [S i]) 0))
           v' false);
      assign_isSticky move true;;
      Delta_addOperation delta move;;
      Document_applyOperation move;;
      mret BatchRef
  end.

(** Modelled from the spec: committing a delta, "the delta's operations to
    the document in sequence". *)
Fixpoint applyOperations (refs : list nat) : M unit :=
  match refs with
  | [] => mret ()
  | r :: rest => Document_applyOperation r;; applyOperations rest
  end.

Definition applyDelta (d : nat) : M unit :=
  δ ← readDelta d;
  applyOperations (operations δ).

(** ** The scenario of the specification *)

Definition leaf (c : string) : node := Text c ∅.

Definition paragraph (ch : list node) : node := Element "p" ∅ ch.

Definition emptyGraveyard : node := Element "$graveyard" ∅ [].

Definition abcDocument : document :=
  Document (Element "$root" ∅ [paragraph [leaf "a"; leaf "b"; leaf "c"]])
    emptyGraveyard 0.

Definition abcState : state := State [] [] [] abcDocument [].

Definition abcPosition : position := Position mainRoot [0] 1.

(** The scenario after the split, and after a split attempted in the
    root. *)
Definition abcSplitState : state := (split abcPosition abcState).2.

Definition abcRootSplitState : state :=
  (split (Position mainRoot [] 0) abcState).2.

(** A deeper scenario: a section with two paragraphs, after a heading. *)
Definition nestedDocument : document :=
  Document
    (Element "$root" ∅
       [Element "heading" ∅ [leaf "t"];
        Element "section" {[ "id" := "s1" ]}
          [Element "p" {[ "align" := "left" ]} [leaf "a"; leaf "b"; leaf "c"];
           paragraph [leaf "d"]]])
    emptyGraveyard 7.

Definition nestedState : state := State [] [] [] nestedDocument [].

Definition nestedPosition : position := Position mainRoot [1; 0] 1.

(** The two operations that [split] builds. *)
Definition splitInsert (r : rootName) (pp : list nat) (i : nat) (nm : string)
    (a : gmap string string) (v : nat) : operation :=
  Operation (InsertOperation (Position r pp (S i)) [Element nm a []]) v false.

Definition splitMove (p : position) (pp : list nat) (i : nat) (howMany : Z)
    (v : nat) : operation :=
  Operation
    (MoveOperation MoveOp p howMany (Position (pos_root p) (pp ++ [S i]) 0))
    v true.

(** A delta that holds one operation only: the scenario when [split] has
    added the insert operation to its delta and nothing more. *)
Definition cloneOnlyState : state :=
  State
    [Operation
       (InsertOperation (Position mainRoot [] 1) [paragraph []]) 0 false]
    [Delta SplitDelta [0]] [0] abcDocument [].

(** A root guard that would leave no delta behind: the error, with the
    document, the deltas and the batch as they were. *)
Definition rootGuardLeavesNoDelta (p : position) (s : state) : Prop :=
  ∃ s', split p s = (Throw batch_split_root, s') ∧
        doc s' = doc s ∧
        dls s' = dls s ∧
        batch_deltas s' = batch_deltas s.

(** [plug pp l n]: the tree [n] in which the element at [pp] has the
    children [l]. *)
Definition plug (pp : list nat) (l : list node) (n : node) : option node :=
  modifyChildren pp (λ _, Some l) n.

(** A modification of the children of child [i], seen from the parent. *)
Definition atChild (i : nat) (f : list node → option (list node))
    (l : list node) : option (list node) :=
  c ← l !! i; c' ← modifyChildren [] f c; Some (<[i := c']> l).

(** The first operation of a list made sticky. *)
Definition stickyFirst (os : list operation) : list operation :=
  match os with
  | [] => []
  | o :: os' => set_isSticky true o :: os'
  end.

(** ** Properties of the class members *)

(** C8: every [SplitDelta], whatever its operations, declares [MergeDelta]
    as its reverse class and has the type tag ['split']; its class name is
    ['engine.model.delta.SplitDelta']. *)
Theorem SplitDelta_constants (os : list nat) :
  Delta__reverseDeltaClass (Delta SplitDelta os) = MergeDelta ∧
  Delta_type (Delta SplitDelta os) = "split" ∧
  SplitDelta_className = "engine.model.delta.SplitDelta".
Proof. done. Qed.

Lemma Operation_sourcePosition_not_null (o : operation) :
  Operation_sourcePosition o ≠ js_null.
Proof. unfold Operation_sourcePosition. by destruct (kind o). Qed.

(** C6 (as the code has it): [position] is the source position of the
    operation at index 1, the move; it is null exactly when the delta has no
    operation at index 1, that is, holds fewer than two operations. *)
Theorem SplitDelta_position_spec (s : state) (δ : delta) :
  (SplitDelta_position s δ = js_null ↔ length (operations δ) < 2) ∧
  (∀ r c src n tgt v b,
      operations δ !! 1 = Some r →
      ops s !! r = Some (Operation (MoveOperation c src n tgt) v b) →
      SplitDelta_position s δ = js_pos src).
Proof.
  unfold SplitDelta_position, SplitDelta__moveOperation. split.
  - destruct (operations δ !! 1) as [r|] eqn:E.
    + apply lookup_lt_Some in E. split; [|lia].
      destruct (ops s !! r) as [o|]; [|done].
      intros H. by apply Operation_sourcePosition_not_null in H.
    + apply lookup_ge_None in E. split; [lia|done].
  - intros r c src n tgt v b -> ->. done.
Qed.

Lemma SplitDelta_position_spec_witness :
  operations (Delta SplitDelta [0; 1]) !! 1 = Some 1 ∧
  ops abcSplitState !! 1 =
    Some (Operation
            (MoveOperation MoveOp abcPosition 2 (Position mainRoot [1] 0))
            1 true) ∧
  SplitDelta_position abcSplitState (Delta SplitDelta [0; 1])
    = js_pos abcPosition.
Proof.
  split; [reflexivity|]. split; [reflexivity|].
  apply (proj2 (SplitDelta_position_spec abcSplitState
                  (Delta SplitDelta [0; 1]))
           1 MoveOp abcPosition 2%Z (Position mainRoot [1] 0) 1 true);
    reflexivity.
Defined.

(** C6, as stated, fails: a delta that holds one operation has a null
    position. *)
Lemma SplitDelta_position_null_one_operation :
  ¬ (SplitDelta_position cloneOnlyState (Delta SplitDelta [0]) = js_null
     ↔ operations (Delta SplitDelta [0]) = []).
Proof. intros [H _]. by specialize (H eq_refl). Qed.

(** ** Reversal *)

Lemma length_reversedOperations (os : list operation) :
  length (reversedOperations os) = length os.
Proof. unfold reversedOperations. by rewrite length_imap, length_reverse. Qed.

Lemma reversedOperations_lookup (os : list operation) (j : nat) (o : operation) :
  os !! j = Some o →
  ∃ o', reversedOperations os !! (length os - 1 - j) = Some o' ∧
        kind o' = reversedKind (kind o).
Proof.
  intros Hj. pose proof (lookup_lt_Some _ _ _ Hj) as Hlt.
  unfold reversedOperations. rewrite list_lookup_imap.
  rewrite reverse_lookup by lia.
  replace (length os - S (length os - 1 - j)) with j by lia.
  rewrite Hj. simpl. eexists. split; [reflexivity|done].
Qed.

Lemma stickyFirst_kind (os : list operation) (j : nat) :
  kind <$> stickyFirst os !! j = kind <$> os !! j.
Proof. destruct os as [|o os']; [done|]. by destruct j. Qed.

Lemma Delta_getReversed_run (s : state) (d : nat) (δ : delta)
    (os : list operation) :
  dls s !! d = Some δ →
  mapM (λ r, ops s !! r) (operations δ) = Some os →
  Delta_getReversed d s =
    (Ok (length (dls s)),
     State (ops s ++ reversedOperations os)
       (dls s ++ [Delta (Delta__reverseDeltaClass δ)
                    (seq (length (ops s)) (length os))])
       (batch_deltas s) (doc s) (trace s)).
Proof.
  intros Hd Hos. unfold Delta_getReversed. rewrite Hd, Hos.
  by rewrite length_reversedOperations.
Qed.

Lemma SplitDelta_getReversed_run (s : state) (d : nat) (δ : delta)
    (os : list operation) :
  dls s !! d = Some δ →
  mapM (λ r, ops s !! r) (operations δ) = Some os →
  SplitDelta_getReversed d s =
    (Ok (length (dls s)),
     State (ops s ++ stickyFirst (reversedOperations os))
       (dls s ++ [Delta (Delta__reverseDeltaClass δ)
                    (seq (length (ops s)) (length os))])
       (batch_deltas s) (doc s) (trace s)).
Proof.
  intros Hd Hos. unfold SplitDelta_getReversed, mbind, M_bind.
  rewrite (Delta_getReversed_run _ _ _ _ Hd Hos).
  unfold readDelta. simpl. rewrite list_lookup_middle by done. simpl.
  pose proof (length_reversedOperations os) as Hlen.
  destruct (reversedOperations os) as [|o inv] eqn:E; simpl in Hlen.
  - rewrite <- Hlen. done.
  - rewrite <- Hlen. simpl. unfold assign_isSticky. simpl.
    rewrite list_lookup_middle by done.
    unfold mret, M_ret.
    rewrite insert_app_r_alt by done. rewrite Nat.sub_diag. done.
Qed.

Lemma mapM_lookup_Some (s : state) (refs : list nat) :
  Forall (λ r, is_Some (ops s !! r)) refs →
  ∃ os, mapM (λ r, ops s !! r) refs = Some os ∧ length os = length refs.
Proof.
  intros H. destruct (mapM (λ r, ops s !! r) refs) as [os|] eqn:E.
  - exists os. split; [done|]. symmetry. by eapply length_mapM.
  - exfalso. assert (is_Some (mapM (λ r, ops s !! r) refs)) as [? ?]; [|congruence].
    apply mapM_is_Some. done.
Qed.

Lemma mapM_lookup_nth (s : state) (refs : list nat) (os : list operation)
    (j r : nat) (o : operation) :
  mapM (λ r, ops s !! r) refs = Some os →
  refs !! j = Some r → ops s !! r = Some o → os !! j = Some o.
Proof.
  intros Hos Hj Hr. apply mapM_Some in Hos.
  destruct (Forall2_lookup_l _ _ _ _ _ Hos Hj) as (o' & Ho' & Hr').
  congruence.
Qed.

(** C5: reversing a [SplitDelta] that holds operations gives the generic
    reversal (a [MergeDelta] whose operations are the inverses of the
    delta's, in reverse order) in which the first operation has been made
    sticky, whatever the flags of the delta's own operations. *)
Theorem SplitDelta_getReversed_sticky (s : state) (d : nat) (δ : delta) :
  dls s !! d = Some δ →
  dclass δ = SplitDelta →
  Forall (λ r, is_Some (ops s !! r)) (operations δ) →
  operations δ ≠ [] →
  ∃ nd s0 s' δ' first o0,
    Delta_getReversed d s = (Ok nd, s0) ∧
    SplitDelta_getReversed d s = (Ok nd, s') ∧
    dls s' !! nd = Some δ' ∧
    dclass δ' = MergeDelta ∧
    operations δ' !! 0 = Some first ∧
    ops s0 !! first = Some o0 ∧
    ops s' !! first = Some (set_isSticky true o0) ∧
    isSticky (set_isSticky true o0) = true ∧
    s' = State (<[first := set_isSticky true o0]> (ops s0)) (dls s0)
           (batch_deltas s0) (doc s0) (trace s0) ∧
    (∀ j r o, operations δ !! j = Some r → ops s !! r = Some o →
       ∃ r' o', operations δ' !! (length (operations δ) - 1 - j) = Some r' ∧
                ops s' !! r' = Some o' ∧
                kind o' = reversedKind (kind o)).
Proof.
  intros Hd Hc Hrefs Hne.
  destruct (mapM_lookup_Some _ _ Hrefs) as (os & Hos & Hlen).
  pose proof (length_reversedOperations os) as Hrl.
  destruct (reversedOperations os) as [|o0 inv] eqn:Hinv.
  { destruct (operations δ); [done|]. simpl in *. lia. }
  eexists _, _, _, _, (length (ops s)), o0.
  split; [by apply Delta_getReversed_run|].
  split; [by apply SplitDelta_getReversed_run|].
  rewrite Hinv. simpl.
  split; [by apply list_lookup_middle|].
  split; [unfold Delta__reverseDeltaClass; by rewrite Hc|].
  simpl in Hrl.
  split; [by rewrite <- Hrl|].
  split; [by apply list_lookup_middle|].
  split; [by apply list_lookup_middle|].
  split; [done|].
  split.
  { rewrite insert_app_r_alt by done. by rewrite Nat.sub_diag. }
  intros j r o Hj Hr.
  pose proof (lookup_lt_Some _ _ _ Hj) as Hjlt.
  pose proof (mapM_lookup_nth _ _ _ _ _ _ Hos Hj Hr) as Hoj.
  destruct (reversedOperations_lookup _ _ _ Hoj) as (o' & Ho' & Hk).
  rewrite Hinv in Ho'.
  pose proof (stickyFirst_kind (o0 :: inv) (length os - 1 - j)) as Hsk.
  rewrite Ho' in Hsk. simpl in Hsk.
  exists (length (ops s) + (length os - 1 - j)).
  destruct ((set_isSticky true o0 :: inv) !! (length os - 1 - j))
    as [o''|] eqn:Ho''; [|done].
  exists o''. rewrite <- Hlen.
  split; [apply lookup_seq_lt; lia|].
  split.
  - rewrite lookup_app_r by lia.
    replace (length (ops s) + (length os - 1 - j) - length (ops s))
      with (length os - 1 - j) by lia.
    done.
  - simpl in Hsk. congruence.
Qed.

(** C10: relative to the generic reversal, [getReversed] of a [SplitDelta]
    that holds operations changes the [isSticky] property of the reversed
    delta's first operation and nothing else: the deltas (so the order of
    the reversed operations), the other operations and the rest of the state
    are those of the generic reversal, and the delta's own operations are as
    they were before the call. *)
Theorem SplitDelta_getReversed_frame (s : state) (d : nat) (δ : delta) :
  dls s !! d = Some δ →
  dclass δ = SplitDelta →
  Forall (λ r, is_Some (ops s !! r)) (operations δ) →
  operations δ ≠ [] →
  ∃ nd s0 s' δ' first,
    Delta_getReversed d s = (Ok nd, s0) ∧
    SplitDelta_getReversed d s = (Ok nd, s') ∧
    dls s0 !! nd = Some δ' ∧
    operations δ' !! 0 = Some first ∧
    dls s' = dls s0 ∧
    batch_deltas s' = batch_deltas s0 ∧
    doc s' = doc s0 ∧
    trace s' = trace s0 ∧
    length (ops s') = length (ops s0) ∧
    (∀ r, r ≠ first → ops s' !! r = ops s0 !! r) ∧
    kind <$> ops s' !! first = kind <$> ops s0 !! first ∧
    baseVersion <$> ops s' !! first = baseVersion <$> ops s0 !! first ∧
    (∀ r, r ∈ operations δ → ops s' !! r = ops s !! r) ∧
    dls s' !! d = Some δ.
Proof.
  intros Hd Hc Hrefs Hne.
  destruct (mapM_lookup_Some _ _ Hrefs) as (os & Hos & Hlen).
  pose proof (length_reversedOperations os) as Hrl.
  destruct (reversedOperations os) as [|o0 inv] eqn:Hinv.
  { destruct (operations δ); [done|]. simpl in *. lia. }
  eexists _, _, _, _, (length (ops s)).
  split; [by apply Delta_getReversed_run|].
  split; [by apply SplitDelta_getReversed_run|].
  rewrite Hinv. simpl in *.
  split; [by apply list_lookup_middle|].
  split; [by rewrite <- Hrl|].
  do 4 (split; [done|]).
  split; [by rewrite !length_app|].
  split.
  { intros r Hr. destruct (decide (r < length (ops s))) as [Hlt|Hge].
    - by rewrite !lookup_app_l by done.
    - rewrite !lookup_app_r by lia.
      destruct (r - length (ops s)) as [|k] eqn:Hk; [lia|done]. }
  split; [by rewrite !list_lookup_middle by done|].
  split; [by rewrite !list_lookup_middle by done|].
  split.
  { intros r Hr. rewrite Forall_forall in Hrefs.
    destruct (Hrefs r Hr) as [o Ho].
    apply lookup_lt_Some in Ho. by rewrite lookup_app_l by done. }
  apply lookup_app_l_Some. done.
Qed.

(** C7: a [SplitDelta] without operations has a null position, and its
    reversal succeeds: the result is a new delta without operations, of the
    reverse class, whose position is null too, and nothing else has
    changed. *)
Theorem SplitDelta_empty_reversal (s : state) (d : nat) :
  dls s !! d = Some (Delta SplitDelta []) →
  SplitDelta_position s (Delta SplitDelta []) = js_null ∧
  ∃ nd s',
    SplitDelta_getReversed d s = (Ok nd, s') ∧
    dls s' !! nd = Some (Delta MergeDelta []) ∧
    Delta_position s' (Delta MergeDelta []) = js_null ∧
    ops s' = ops s ∧
    doc s' = doc s ∧
    (∀ d', d' < length (dls s) → dls s' !! d' = dls s !! d').
Proof.
  intros Hd. split; [done|].
  eexists _, _.
  split; [by apply (SplitDelta_getReversed_run s d (Delta SplitDelta []) [])|].
  simpl. split; [by apply list_lookup_middle|].
  split; [done|].
  split; [by rewrite app_nil_r|].
  split; [done|].
  intros d' Hd'. by rewrite lookup_app_l.
Qed.

(** ** The tree under an operation *)

Lemma getNodeByPath_app (p q : list nat) (n : node) :
  getNodeByPath (p ++ q) n = getNodeByPath p n ≫= getNodeByPath q.
Proof.
  revert n. induction p as [|i p IH]; intros n; simpl; [done|].
  destruct n as [|nm a ch]; [done|].
  destruct (ch !! i); simpl; [apply IH|done].
Qed.

Lemma getNodeByPath_child (pp : list nat) (i : nat) (n e : node) :
  getNodeByPath (pp ++ [i]) n = Some e →
  ∃ pn pa pch, getNodeByPath pp n = Some (Element pn pa pch) ∧
               pch !! i = Some e.
Proof.
  rewrite getNodeByPath_app. intros H.
  destruct (getNodeByPath pp n) as [[|pn pa pch]|]; simpl in H; try done.
  exists pn, pa, pch. split; [done|].
  by destruct (pch !! i).
Qed.

Lemma modifyChildren_snoc (pp : list nat) (i : nat)
    (f : list node → option (list node)) (n : node) :
  modifyChildren (pp ++ [i]) f n = modifyChildren pp (atChild i f) n.
Proof.
  revert n. induction pp as [|j pp IH]; intros [|nm a ch]; simpl; try done.
  - unfold atChild. destruct (ch !! i) as [c|]; simpl; [|done].
    destruct c as [|cn ca cch]; simpl; [done|]. by destruct (f cch).
  - destruct (ch !! j) as [c|]; simpl; [|done]. by rewrite IH.
Qed.

Lemma modifyChildren_plug (pp : list nat) (f : list node → option (list node))
    (n : node) (nm : string) (a : gmap string string) (ch ch' : list node) :
  getNodeByPath pp n = Some (Element nm a ch) →
  f ch = Some ch' →
  modifyChildren pp f n = plug pp ch' n.
Proof.
  unfold plug. revert n.
  induction pp as [|i pp IH]; intros [|nm' a' chn]; simpl; try done.
  - intros [= -> -> ->] ->. done.
  - intros H Hf. destruct (chn !! i) as [c|]; simpl in *; [|done].
    by rewrite (IH c H Hf).
Qed.

Lemma plug_lookup (pp : list nat) (l : list node) (n : node) (nm : string)
    (a : gmap string string) (ch : list node) :
  getNodeByPath pp n = Some (Element nm a ch) →
  ∃ n', plug pp l n = Some n' ∧ getNodeByPath pp n' = Some (Element nm a l).
Proof.
  unfold plug. revert n.
  induction pp as [|i pp IH]; intros [|nm' a' chn]; simpl; try done.
  - intros [= -> -> ->]. by eexists.
  - intros H. destruct (chn !! i) as [c|] eqn:Hc; simpl in *; [|done].
    destruct (IH c H) as (c' & -> & Hc'). simpl.
    eexists. split; [done|]. simpl.
    rewrite list_lookup_insert_eq by (by eapply lookup_lt_Some). done.
Qed.

Lemma plug_plug (pp : list nat) (l1 l2 : list node) (n n1 : node) :
  plug pp l1 n = Some n1 → plug pp l2 n1 = plug pp l2 n.
Proof.
  unfold plug. revert n n1.
  induction pp as [|i pp IH]; intros [|nm a ch] n1; simpl; try done.
  - intros [= <-]. done.
  - destruct (ch !! i) as [c|] eqn:Hc; simpl; [|done].
    destruct (modifyChildren pp (λ _, Some l1) c) as [c1|] eqn:Hc1;
      simpl; [|done].
    intros [= <-]. simpl.
    rewrite list_lookup_insert_eq by (by eapply lookup_lt_Some). simpl.
    rewrite (IH _ _ Hc1).
    destruct (modifyChildren pp (λ _, Some l2) c); simpl; [|done].
    by rewrite list_insert_insert_eq.
Qed.

Lemma plug_same (pp : list nat) (n : node) (nm : string)
    (a : gmap string string) (ch : list node) :
  getNodeByPath pp n = Some (Element nm a ch) → plug pp ch n = Some n.
Proof.
  unfold plug. revert n.
  induction pp as [|i pp IH]; intros [|nm' a' chn]; simpl; try done.
  - intros [= -> -> ->]. done.
  - intros H. destruct (chn !! i) as [c|] eqn:Hc; simpl in *; [|done].
    rewrite (IH c H). simpl. by rewrite list_insert_id.
Qed.

Lemma stripPrefix_siblings (pp : list nat) (i j : nat) :
  i ≠ j → stripPrefix (pp ++ [i]) (pp ++ [j]) = None.
Proof.
  intros Hij. induction pp as [|x pp IH]; simpl.
  - by rewrite decide_False.
  - by rewrite decide_True.
Qed.

Lemma getTransformedByDeletion_siblings (r : rootName) (pp : list nat)
    (i j k t n : nat) :
  i ≠ j →
  getTransformedByDeletion (Position r (pp ++ [j]) t)
    (Position r (pp ++ [i]) k) n = Some (Position r (pp ++ [j]) t).
Proof.
  intros Hij. unfold getTransformedByDeletion. simpl.
  rewrite decide_True by done.
  rewrite decide_False by (intros H; apply app_inv_head in H; congruence).
  by rewrite stripPrefix_siblings.
Qed.

Lemma getTransformedByInsertion_siblings (r : rootName) (pp : list nat)
    (i j k t n : nat) :
  i ≠ j →
  getTransformedByInsertion (Position r (pp ++ [j]) t)
    (Position r (pp ++ [i]) k) n = Position r (pp ++ [j]) t.
Proof.
  intros Hij. unfold getTransformedByInsertion. simpl.
  rewrite decide_True by done.
  rewrite decide_False by (intros H; apply app_inv_head in H; congruence).
  by rewrite stripPrefix_siblings.
Qed.

Lemma getRoot_setRoot (d : document) (r : rootName) (n : node) :
  getRoot (setRoot d r n) r = n.
Proof. by destruct r. Qed.

Lemma setRoot_setRoot (d : document) (r : rootName) (n n' : node) :
  setRoot (setRoot d r n) r n' = setRoot d r n'.
Proof. by destruct r. Qed.

Lemma unsnoc_snoc {A} (l : list A) (x : A) : unsnoc (l ++ [x]) = Some (l, x).
Proof. induction l as [|y l IH]; simpl; [done|]. by rewrite IH. Qed.

Lemma execute_insert (d : document) (p : position) (nodes : list node)
    (pn : string) (pa : gmap string string) (pch : list node) :
  getNodeByPath (parentPath p) (getRoot d (pos_root p))
    = Some (Element pn pa pch) →
  offset p ≤ length pch →
  execute (InsertOperation p nodes) d =
    (R' ← plug (parentPath p)
            (take (offset p) pch ++ nodes ++ drop (offset p) pch)
            (getRoot d (pos_root p));
     Some (setRoot d (pos_root p) R')).
Proof.
  intros H Hle. unfold execute.
  erewrite modifyChildren_plug; [done|done|].
  unfold insertChildren. by rewrite decide_True.
Qed.

Lemma getNodeByPath_snoc (pp : list nat) (i : nat) (n : node) (pn : string)
    (pa : gmap string string) (pch : list node) :
  getNodeByPath pp n = Some (Element pn pa pch) →
  getNodeByPath (pp ++ [i]) n = pch !! i.
Proof.
  intros H. rewrite getNodeByPath_app, H. simpl. by destruct (pch !! i).
Qed.

Lemma atChild_run (i : nat) (f : list node → option (list node))
    (l : list node) (nm : string) (a : gmap string string)
    (ch ch' : list node) :
  l !! i = Some (Element nm a ch) → f ch = Some ch' →
  atChild i f l = Some (<[i := Element nm a ch']> l).
Proof. intros Hi Hf. unfold atChild. rewrite Hi. simpl. by rewrite Hf. Qed.

(** A move between two children of the same element. *)
Lemma execute_move_siblings (d : document) (cls : moveClass) (r : rootName)
    (pp : list nat) (i j k t n : nat) (pn : string) (pa : gmap string string)
    (pch : list node) (n1 n2 : string) (a1 a2 : gmap string string)
    (c1 c2 : list node) :
  i ≠ j →
  getNodeByPath pp (getRoot d r) = Some (Element pn pa pch) →
  pch !! i = Some (Element n1 a1 c1) →
  pch !! j = Some (Element n2 a2 c2) →
  k + n ≤ length c1 →
  t ≤ length c2 →
  execute (MoveOperation cls (Position r (pp ++ [i]) k) (Z.of_nat n)
             (Position r (pp ++ [j]) t)) d =
    (R' ← plug pp
            (<[j := Element n2 a2
                      (take t c2 ++ take n (drop k c1) ++ drop t c2)]>
               (<[i := Element n1 a1 (take k c1 ++ drop (k + n) c1)]> pch))
            (getRoot d r);
     Some (setRoot d r R')).
Proof.
  intros Hij Hpp Hi Hj Hk Ht. unfold execute.
  rewrite decide_False by lia. rewrite Nat2Z.id.
  cbn [parentPath offset pos_root].
  rewrite (getNodeByPath_snoc _ _ _ _ _ _ Hpp), Hi. cbn [mbind option_bind getChildren].
  rewrite modifyChildren_snoc.
  erewrite modifyChildren_plug; [|done|]; cycle 1.
  { eapply atChild_run; [done|]. unfold removeChildren. by rewrite decide_True. }
  edestruct (plug_lookup pp) as (R1 & HR1 & Hpp1); [exact Hpp|].
  rewrite HR1. cbn [mbind option_bind].
  rewrite getTransformedByDeletion_siblings by done.
  cbn [mbind option_bind parentPath offset pos_root].
  rewrite getRoot_setRoot, modifyChildren_snoc.
  erewrite modifyChildren_plug; [|done|]; cycle 1.
  { eapply atChild_run.
    - rewrite list_lookup_insert_ne by done. done.
    - unfold insertChildren. by rewrite decide_True. }
  rewrite (plug_plug _ _ _ _ _ HR1).
  match goal with |- ?m ≫= _ = _ => destruct m end;
    cbn [mbind option_bind]; [|done].
  by rewrite setRoot_setRoot.
Qed.

(** A removal from the main tree: the nodes go to the start of the
    graveyard. *)
Lemma execute_remove (d : document) (pp : list nat) (off n : nat)
    (pn gn : string) (pa ga : gmap string string) (pch gch : list node) :
  getNodeByPath pp (root d) = Some (Element pn pa pch) →
  off + n ≤ length pch →
  graveyard d = Element gn ga gch →
  execute (MoveOperation RemoveOp (Position mainRoot pp off) (Z.of_nat n)
             graveyardPosition) d =
    (R' ← plug pp (take off pch ++ drop (off + n) pch) (root d);
     Some (Document R' (Element gn ga (take n (drop off pch) ++ gch))
             (version d))).
Proof.
  intros Hpp Hn Hg. unfold execute.
  rewrite decide_False by lia. rewrite Nat2Z.id.
  cbn [parentPath offset pos_root graveyardPosition getRoot].
  rewrite Hpp. cbn [mbind option_bind getChildren].
  erewrite modifyChildren_plug; [|done|]; cycle 1.
  { unfold removeChildren. by rewrite decide_True. }
  destruct (plug pp _ (root d)) as [R'|]; cbn [mbind option_bind]; [|done].
  unfold getTransformedByDeletion. cbn.
  rewrite Hg. cbn. done.
Qed.

(** ** Running [split] *)

Lemma bind_run {A B} (m : M A) (f : A → M B) (s s' : state) (a : A) :
  m s = (Ok a, s') → (m ≫= f) s = f a s'.
Proof. intros H. unfold mbind, M_bind. by rewrite H. Qed.

Lemma Position_parent_run (p : position) (s : state) (e : node) :
  getNodeByPath (parentPath p) (getRoot (doc s) (pos_root p)) = Some e →
  (∃ nm a ch, e = Element nm a ch) →
  Position_parent p s = (Ok e, s).
Proof.
  intros H (nm & a & ch & ->). unfold Position_parent. by rewrite H.
Qed.

Lemma Document_applyOperation_run (op : nat) (o : operation) (s : state)
    (d' : document) :
  ops s !! op = Some o →
  baseVersion o = version (doc s) →
  execute (kind o) (doc s) = Some d' →
  Document_applyOperation op s =
    (Ok (), State (ops s) (dls s) (batch_deltas s) (nextVersion d')
              (trace s ++ [EvApplyOperation op])).
Proof.
  intros Hop Hv He. unfold Document_applyOperation, applied.
  rewrite Hop, decide_True by done. by rewrite He.
Qed.

Lemma getRoot_nextVersion (d : document) (r : rootName) :
  getRoot (nextVersion d) r = getRoot d r.
Proof. by destruct r. Qed.

Lemma version_setRoot (d : document) (r : rootName) (n : node) :
  version (setRoot d r n) = version d.
Proof. by destruct r. Qed.

Lemma setRoot_nextVersion (d : document) (r : rootName) (n : node) :
  setRoot (nextVersion d) r n = nextVersion (setRoot d r n).
Proof. by destruct r. Qed.

Ltac run_with tac :=
  erewrite bind_run by tac; cbn [ops dls batch_deltas doc trace].

Ltac run := run_with ltac:(reflexivity).

Lemma take_S_middle {A} (pre post : list A) (x : A) :
  take (S (length pre)) (pre ++ x :: post) = pre ++ [x].
Proof. rewrite cons_middle, app_assoc. apply take_app_length'. rewrite length_app. simpl. lia. Qed.

Lemma drop_S_middle {A} (pre post : list A) (x : A) :
  drop (S (length pre)) (pre ++ x :: post) = post.
Proof. rewrite cons_middle, app_assoc. apply drop_app_length'. rewrite length_app. simpl. lia. Qed.

Lemma lookup_S_middle {A} (pre post : list A) (x y : A) :
  (pre ++ x :: y :: post) !! S (length pre) = Some y.
Proof.
  rewrite cons_middle, app_assoc.
  apply list_lookup_middle. rewrite length_app. simpl. lia.
Qed.

Lemma insert_middle {A} (pre post : list A) (x y : A) :
  <[length pre := y]> (pre ++ x :: post) = pre ++ y :: post.
Proof. rewrite insert_app_r_alt by done. by rewrite Nat.sub_diag. Qed.

Lemma insert_S_middle {A} (pre post : list A) (x y z : A) :
  <[S (length pre) := z]> (pre ++ x :: y :: post) = pre ++ x :: z :: post.
Proof.
  rewrite insert_app_r_alt by lia.
  replace (S (length pre) - length pre) with 1 by lia. done.
Qed.

Lemma split_run (s : state) (r : rootName) (pp : list nat) (k : nat)
    (pn nm : string) (pa a : gmap string string) (pre post ch : list node) :
  getNodeByPath pp (getRoot (doc s) r)
    = Some (Element pn pa (pre ++ Element nm a ch :: post)) →
  k ≤ length ch →
  let p := Position r (pp ++ [length pre]) k in
  let insert := splitInsert r pp (length pre) nm a (version (doc s)) in
  let move :=
    splitMove p pp (length pre) (Z.of_nat (length ch) - Z.of_nat k)
      (S (version (doc s))) in
  ∃ R1 R2,
    plug pp (pre ++ Element nm a ch :: Element nm a [] :: post)
      (getRoot (doc s) r) = Some R1 ∧
    plug pp (pre ++ Element nm a (take k ch) :: Element nm a (drop k ch) :: post)
      (getRoot (doc s) r) = Some R2 ∧
    execute (kind insert) (doc s) = Some (setRoot (doc s) r R1) ∧
    execute (kind move) (nextVersion (setRoot (doc s) r R1))
      = Some (nextVersion (setRoot (doc s) r R2)) ∧
    split p s =
      (Ok BatchRef,
       State (ops s ++ [insert; move])
         (dls s ++ [Delta SplitDelta [length (ops s); S (length (ops s))]])
         (batch_deltas s ++ [length (dls s)])
         (nextVersion (nextVersion (setRoot (doc s) r R2)))
         (trace s ++
            [EvAddDelta (length (dls s));
             EvAddOperation (length (dls s)) (length (ops s));
             EvApplyOperation (length (ops s));
             EvAddOperation (length (dls s)) (S (length (ops s)));
             EvApplyOperation (S (length (ops s)))])).
Proof.
  intros Hpp Hk p insert move. subst p insert move.
  destruct (plug_lookup pp
    (pre ++ Element nm a ch :: Element nm a [] :: post) _ _ _ _ Hpp)
    as (R1 & HR1 & Hpp1).
  destruct (plug_lookup pp
    (pre ++ Element nm a (take k ch) :: Element nm a (drop k ch) :: post)
    _ _ _ _ Hpp) as (R2 & HR2 & Hpp2).
  exists R1, R2. split; [done|]. split; [done|].
  assert (HE : getNodeByPath (pp ++ [length pre]) (getRoot (doc s) r)
               = Some (Element nm a ch)).
  { rewrite (getNodeByPath_snoc _ _ _ _ _ _ Hpp). by apply list_lookup_middle. }
  assert (Hex1 :
    execute (InsertOperation (Position r pp (S (length pre))) [Element nm a []])
      (doc s) = Some (setRoot (doc s) r R1)).
  { erewrite execute_insert; [|exact Hpp|]; cbn [parentPath offset pos_root].
    - rewrite take_S_middle, drop_S_middle, <- app_assoc. cbn [app].
      by rewrite HR1.
    - rewrite length_app. simpl. lia. }
  set (d1 := nextVersion (setRoot (doc s) r R1)).
  assert (Hd1 : getNodeByPath pp (getRoot d1 r) =
    Some (Element pn pa (pre ++ Element nm a ch :: Element nm a [] :: post))).
  { unfold d1. by rewrite getRoot_nextVersion, getRoot_setRoot. }
  assert (HE1 : getNodeByPath (pp ++ [length pre]) (getRoot d1 r)
                = Some (Element nm a ch)).
  { rewrite (getNodeByPath_snoc _ _ _ _ _ _ Hd1). by apply list_lookup_middle. }
  assert (Hex2 :
    execute (MoveOperation MoveOp (Position r (pp ++ [length pre]) k)
               (Z.of_nat (length ch) - Z.of_nat k)
               (Position r (pp ++ [S (length pre)]) 0)) d1
    = Some (setRoot d1 r R2)).
  { replace (Z.of_nat (length ch) - Z.of_nat k)%Z
      with (Z.of_nat (length ch - k)) by lia.
    erewrite execute_move_siblings;
      [|lia|exact Hd1|by apply list_lookup_middle|apply lookup_S_middle
       |lia|simpl; lia].
    rewrite insert_middle, insert_S_middle.
    cbn [take drop app].
    rewrite app_nil_r.
    rewrite (take_ge (drop k ch)) by (rewrite length_drop; lia).
    rewrite (drop_ge ch) by lia. rewrite app_nil_r.
    replace (getRoot d1 r) with R1
      by (unfold d1; by rewrite getRoot_nextVersion, getRoot_setRoot).
    rewrite (plug_plug _ _ _ _ _ HR1), HR2. done. }
  split; [exact Hex1|].
  split.
  { cbn [splitMove kind pos_root]. fold d1. rewrite Hex2. unfold d1.
    by rewrite setRoot_nextVersion, setRoot_setRoot. }
  unfold split.
  run. run.
  run_with ltac:(apply Position_parent_run; [exact HE|by eexists _, _, _]).
  cbn [parentPath pos_root offset]. rewrite unsnoc_snoc.
  run. run.
  run_with ltac:(unfold Delta_addOperation; cbn [dls];
                 rewrite list_lookup_middle by done; reflexivity).
  cbn [dclass operations app Node_name getAttributes].
  rewrite insert_middle.
  run_with ltac:(eapply Document_applyOperation_run;
                 [by apply list_lookup_middle|reflexivity|exact Hex1]).
  fold d1.
  run_with ltac:(apply Position_parent_run; [exact HE1|by eexists _, _, _]).
  run. run.
  assert (Hv1 : version d1 = S (version (doc s))) by (unfold d1; by destruct r).
  rewrite Hv1, <- app_assoc, length_app. cbn [app length maxOffset getChildren].
  rewrite Nat.add_1_r.
  run_with ltac:(unfold assign_isSticky; cbn [ops];
                 rewrite lookup_S_middle; reflexivity).
  rewrite insert_S_middle.
  run_with ltac:(unfold Delta_addOperation; cbn [dls];
                 rewrite list_lookup_middle by done; reflexivity).
  cbn [dclass operations app]. rewrite insert_middle.
  run_with ltac:(eapply Document_applyOperation_run;
                 [apply lookup_S_middle|exact (eq_sym Hv1)|exact Hex2]).
  unfold mret, M_ret, splitInsert, splitMove, set_isSticky.
  cbn [kind baseVersion pos_root].
  replace (nextVersion (setRoot d1 r R2))
    with (nextVersion (nextVersion (setRoot (doc s) r R2)))
    by (unfold d1; by rewrite setRoot_nextVersion, setRoot_setRoot).
  by rewrite <- !app_assoc.
Qed.

Lemma plug_result (pp : list nat) (l : list node) (n n' : node) (nm : string)
    (a : gmap string string) (ch : list node) :
  getNodeByPath pp n = Some (Element nm a ch) →
  plug pp l n = Some n' →
  getNodeByPath pp n' = Some (Element nm a l).
Proof.
  intros H Hn'. destruct (plug_lookup pp l _ _ _ _ H) as (n'' & Hn'' & Hl).
  congruence.
Qed.

Lemma applied_run (o : operation) (d d' : document) :
  baseVersion o = version d →
  execute (kind o) d = Some d' →
  applied o d = Ok (nextVersion d').
Proof. intros Hv He. unfold applied. rewrite decide_True by done. by rewrite He. Qed.

(** [split] at a valid position that is not in a root: both operations are
    built and applied, and the batch is returned. *)
Lemma split_valid (s : state) (p : position) (pp : list nat) (i : nat)
    (nm : string) (a : gmap string string) (ch : list node) :
  parentPath p = pp ++ [i] →
  getNodeByPath (parentPath p) (getRoot (doc s) (pos_root p))
    = Some (Element nm a ch) →
  offset p ≤ length ch →
  let insert := splitInsert (pos_root p) pp i nm a (version (doc s)) in
  let move :=
    splitMove p pp i (Z.of_nat (length ch) - Z.of_nat (offset p))
      (S (version (doc s))) in
  ∃ d1 d2,
    applied insert (doc s) = Ok d1 ∧
    applied move d1 = Ok d2 ∧
    version d1 = S (version (doc s)) ∧
    version d2 = S (S (version (doc s))) ∧
    getNodeByPath (pp ++ [i]) (getRoot d1 (pos_root p))
      = Some (Element nm a ch) ∧
    getNodeByPath (pp ++ [S i]) (getRoot d1 (pos_root p))
      = Some (Element nm a []) ∧
    getNodeByPath (pp ++ [i]) (getRoot d2 (pos_root p))
      = Some (Element nm a (take (offset p) ch)) ∧
    getNodeByPath (pp ++ [S i]) (getRoot d2 (pos_root p))
      = Some (Element nm a (drop (offset p) ch)) ∧
    split p s =
      (Ok BatchRef,
       State (ops s ++ [insert; move])
         (dls s ++ [Delta SplitDelta [length (ops s); S (length (ops s))]])
         (batch_deltas s ++ [length (dls s)])
         d2
         (trace s ++
            [EvAddDelta (length (dls s));
             EvAddOperation (length (dls s)) (length (ops s));
             EvApplyOperation (length (ops s));
             EvAddOperation (length (dls s)) (S (length (ops s)));
             EvApplyOperation (S (length (ops s)))])).
Proof.
  destruct p as [r q k]. cbn [parentPath pos_root offset].
  intros -> HE Hk.
  destruct (getNodeByPath_child _ _ _ _ HE) as (pn & pa & pch & Hpp & Hi).
  destruct (list_elem_of_split_length _ _ _ Hi) as (pre & post & -> & ->).
  destruct (split_run s r pp k pn nm pa a pre post ch Hpp Hk)
    as (R1 & R2 & HR1 & HR2 & Hex1 & Hex2 & Hrun).
  pose proof (plug_result _ _ _ _ _ _ _ Hpp HR1) as H1.
  pose proof (plug_result _ _ _ _ _ _ _ Hpp HR2) as H2.
  exists (nextVersion (setRoot (doc s) r R1)),
         (nextVersion (nextVersion (setRoot (doc s) r R2))).
  split; [by apply applied_run|].
  split.
  { apply applied_run; [|exact Hex2]. cbn. by rewrite version_setRoot. }
  split; [cbn; by rewrite version_setRoot|].
  split; [cbn; by rewrite version_setRoot|].
  rewrite !getRoot_nextVersion, !getRoot_setRoot.
  rewrite (getNodeByPath_snoc _ _ _ _ _ _ H1), (getNodeByPath_snoc _ _ _ _ _ _ H1).
  rewrite (getNodeByPath_snoc _ _ _ _ _ _ H2), (getNodeByPath_snoc _ _ _ _ _ _ H2).
  rewrite !lookup_S_middle, !list_lookup_middle by done.
  do 4 (split; [done|]). exact Hrun.
Qed.

(** ** Properties of [split] *)

(** C3: at a valid position whose parent is not a root, [split] leaves in
    the batch a [SplitDelta] of exactly two operations, in this order: an
    insert operation that places an element with the name and attributes of
    the position's parent, and without children, right after that parent;
    and a move operation that takes the children of the parent from the
    position's offset up to [maxOffset] to offset 0 of that new element. *)
Theorem split_builds_insert_then_move (s : state) (p : position)
    (pp : list nat) (i : nat) (nm : string) (a : gmap string string)
    (ch : list node) :
  parentPath p = pp ++ [i] →
  getNodeByPath (parentPath p) (getRoot (doc s) (pos_root p))
    = Some (Element nm a ch) →
  offset p ≤ length ch →
  ∃ s' d o1 o2 insert move d1,
    split p s = (Ok BatchRef, s') ∧
    batch_deltas s' = batch_deltas s ++ [d] ∧
    dls s' !! d = Some (Delta SplitDelta [o1; o2]) ∧
    ops s' !! o1 = Some insert ∧
    kind insert =
      InsertOperation (Position (pos_root p) pp (S i)) [Element nm a []] ∧
    ops s' !! o2 = Some move ∧
    kind move =
      MoveOperation MoveOp p
        (Z.of_nat (maxOffset (Element nm a ch)) - Z.of_nat (offset p))
        (Position (pos_root p) (pp ++ [S i]) 0) ∧
    applied insert (doc s) = Ok d1 ∧
    getNodeByPath (pp ++ [i]) (getRoot d1 (pos_root p))
      = Some (Element nm a ch) ∧
    getNodeByPath (pp ++ [S i]) (getRoot d1 (pos_root p))
      = Some (Element nm a []).
Proof.
  intros Hp HE Hk.
  destruct (split_valid s p pp i nm a ch Hp HE Hk)
    as (d1 & d2 & Ha1 & Ha2 & Hv1 & Hv2 & He1 & Hc1 & He2 & Hc2 & Hrun).
  eexists _, (length (dls s)), (length (ops s)), (S (length (ops s))), _, _, d1.
  split; [exact Hrun|]. cbn [batch_deltas dls ops].
  split; [done|].
  split; [by apply list_lookup_middle|].
  split; [by apply list_lookup_middle|].
  split; [done|].
  split; [by apply lookup_S_middle|].
  split; [done|].
  split; [exact Ha1|]. done.
Qed.

(** C4: in the delta built by [split], the insert operation expects the
    version the document had when [split] was called and the move operation
    the version after the insert operation was applied; the move operation
    is sticky; and each operation is applied to the document right after it
    was added to the delta, before anything else is done. *)
Theorem split_versions_and_order (s : state) (p : position)
    (pp : list nat) (i : nat) (nm : string) (a : gmap string string)
    (ch : list node) :
  parentPath p = pp ++ [i] →
  getNodeByPath (parentPath p) (getRoot (doc s) (pos_root p))
    = Some (Element nm a ch) →
  offset p ≤ length ch →
  ∃ s' d o1 o2 insert move d1,
    split p s = (Ok BatchRef, s') ∧
    dls s' !! d = Some (Delta SplitDelta [o1; o2]) ∧
    ops s' !! o1 = Some insert ∧
    ops s' !! o2 = Some move ∧
    baseVersion insert = version (doc s) ∧
    applied insert (doc s) = Ok d1 ∧
    version d1 = S (version (doc s)) ∧
    baseVersion move = version d1 ∧
    isSticky move = true ∧
    applied move d1 = Ok (doc s') ∧
    trace s' = trace s ++
      [EvAddDelta d;
       EvAddOperation d o1; EvApplyOperation o1;
       EvAddOperation d o2; EvApplyOperation o2].
Proof.
  intros Hp HE Hk.
  destruct (split_valid s p pp i nm a ch Hp HE Hk)
    as (d1 & d2 & Ha1 & Ha2 & Hv1 & Hv2 & He1 & Hc1 & He2 & Hc2 & Hrun).
  eexists _, (length (dls s)), (length (ops s)), (S (length (ops s))), _, _, d1.
  split; [exact Hrun|]. cbn [batch_deltas dls ops doc trace].
  split; [by apply list_lookup_middle|].
  split; [by apply list_lookup_middle|].
  split; [by apply lookup_S_middle|].
  split; [done|].
  split; [exact Ha1|].
  split; [exact Hv1|].
  split; [by rewrite Hv1|].
  split; [done|].
  split; [exact Ha2|]. done.
Qed.

(** C9 (as the code has it): at a valid position whose parent is not a
    root, [split] returns the batch itself, for chaining; the [SplitDelta]
    it has built is the last delta of the batch. *)
Theorem split_returns_batch (s : state) (p : position)
    (pp : list nat) (i : nat) (nm : string) (a : gmap string string)
    (ch : list node) :
  parentPath p = pp ++ [i] →
  getNodeByPath (parentPath p) (getRoot (doc s) (pos_root p))
    = Some (Element nm a ch) →
  offset p ≤ length ch →
  ∃ s' d δ,
    split p s = (Ok BatchRef, s') ∧
    last (batch_deltas s') = Some d ∧
    dls s' !! d = Some δ ∧
    dclass δ = SplitDelta ∧
    length (operations δ) = 2 ∧
    dls s !! d = None.
Proof.
  intros Hp HE Hk.
  destruct (split_valid s p pp i nm a ch Hp HE Hk)
    as (d1 & d2 & Ha1 & Ha2 & Hv1 & Hv2 & He1 & Hc1 & He2 & Hc2 & Hrun).
  eexists _, (length (dls s)), _.
  split; [exact Hrun|]. cbn [batch_deltas dls].
  split; [by rewrite last_snoc|].
  split; [by apply list_lookup_middle|].
  split; [done|]. split; [done|].
  by apply lookup_ge_None.
Qed.

(** C9, as stated, fails: what [split] returns is not a delta. *)
Lemma split_does_not_return_delta :
  ¬ ∃ d, (split abcPosition abcState).1 = Ok (DeltaRef d).
Proof. intros [d H]. vm_compute in H. discriminate. Qed.

(** C2 (as the code has it): at a position whose parent is a root, [split]
    throws [batch-split-root]; the document is untouched and no operation
    has been created, added or applied; the [SplitDelta] that was created
    and added to the batch before the check stays there, empty. *)
Theorem split_root_guard (s : state) (p : position) (nm : string)
    (a : gmap string string) (ch : list node) :
  parentPath p = [] →
  getRoot (doc s) (pos_root p) = Element nm a ch →
  ∃ s',
    split p s = (Throw batch_split_root, s') ∧
    doc s' = doc s ∧
    ops s' = ops s ∧
    dls s' = dls s ++ [Delta SplitDelta []] ∧
    batch_deltas s' = batch_deltas s ++ [length (dls s)] ∧
    trace s' = trace s ++ [EvAddDelta (length (dls s))].
Proof.
  intros Hp Hr. eexists. split.
  - unfold split. run. run.
    run_with ltac:(apply Position_parent_run;
                   [rewrite Hp; cbn; rewrite Hr; reflexivity
                   |by eexists _, _, _]).
    rewrite Hp. reflexivity.
  - done.
Qed.

(** C2, as stated, fails: after the error the batch holds a delta more. *)
Lemma split_root_guard_leaves_delta :
  ¬ rootGuardLeavesNoDelta (Position mainRoot [] 0) abcState.
Proof.
  intros (s' & Hs & _ & Hd & _).
  assert (dls (split (Position mainRoot [] 0) abcState).2 = dls abcState)
    as H by (by rewrite Hs).
  vm_compute in H. discriminate.
Qed.

(** ** Undoing a split *)

Lemma reversedOperations_split (r : rootName) (pp : list nat) (i k n v : nat)
    (nm : string) (a : gmap string string) :
  reversedOperations
    [splitInsert r pp i nm a v;
     splitMove (Position r (pp ++ [i]) k) pp i (Z.of_nat n) (S v)] =
  [Operation
     (MoveOperation MoveOp (Position r (pp ++ [S i]) 0) (Z.of_nat n)
        (Position r (pp ++ [i]) k)) (S (S v)) false;
   Operation
     (MoveOperation RemoveOp (Position r pp (S i)) 1 graveyardPosition)
     (S (S (S v))) false].
Proof.
  unfold reversedOperations, splitInsert, splitMove, Operation_getReversed,
    set_baseVersion.
  cbn [reverse rev_append last fmap option_fmap option_map default imap
       baseVersion kind isSticky reversedKind reversedClass pos_root length].
  rewrite Nat2Z.id.
  rewrite getTransformedByDeletion_siblings by lia.
  rewrite getTransformedByInsertion_siblings by lia.
  unfold compose, id.
  cbn [default reversedKind kind length].
  replace (S v + 0 + 1) with (S (S v)) by lia.
  replace (S v + 1 + 1) with (S (S (S v))) by lia.
  reflexivity.
Qed.

Lemma drop_SS_middle {A} (pre post : list A) (x y : A) :
  drop (S (length pre) + 1) (pre ++ x :: y :: post) = post.
Proof.
  replace (pre ++ x :: y :: post) with ((pre ++ [x; y]) ++ post)
    by (by rewrite <- app_assoc).
  apply drop_app_length'. rewrite length_app. simpl. lia.
Qed.

Lemma round_trip_run (s : state) (pp : list nat) (k : nat) (pn nm gn : string)
    (pa a ga : gmap string string) (pre post ch gch : list node) :
  getNodeByPath pp (root (doc s))
    = Some (Element pn pa (pre ++ Element nm a ch :: post)) →
  k ≤ length ch →
  graveyard (doc s) = Element gn ga gch →
  ∃ s1 s2 s3,
    split (Position mainRoot (pp ++ [length pre]) k) s = (Ok BatchRef, s1) ∧
    batch_deltas s1 = batch_deltas s ++ [length (dls s)] ∧
    SplitDelta_getReversed (length (dls s)) s1
      = (Ok (S (length (dls s))), s2) ∧
    applyDelta (S (length (dls s))) s2 = (Ok (), s3) ∧
    doc s3 =
      Document (root (doc s)) (Element gn ga (Element nm a [] :: gch))
        (version (doc s) + 4).
Proof.
  intros Hpp Hk Hg.
  destruct (split_run s mainRoot pp k pn nm pa a pre post ch Hpp Hk)
    as (R1 & R2 & HR1 & HR2 & _ & _ & Hrun).
  cbn [getRoot] in HR1, HR2.
  pose proof (plug_result _ _ _ _ _ _ _ Hpp HR1) as H1.
  pose proof (plug_result _ _ _ _ _ _ _ Hpp HR2) as H2.
  replace (Z.of_nat (length ch) - Z.of_nat k)%Z
    with (Z.of_nat (length ch - k)) in Hrun by lia.
  set (d2 := nextVersion (nextVersion (setRoot (doc s) mainRoot R2))) in *.
  assert (Hex3 :
    execute (MoveOperation MoveOp (Position mainRoot (pp ++ [S (length pre)]) 0)
               (Z.of_nat (length ch - k))
               (Position mainRoot (pp ++ [length pre]) k)) d2
    = Some (setRoot d2 mainRoot R1)).
  { erewrite execute_move_siblings;
      [|lia|exact H2|apply lookup_S_middle|by apply list_lookup_middle
       |rewrite length_drop; lia|rewrite length_take; lia].
    rewrite insert_S_middle, insert_middle.
    cbn [take drop app Nat.add].
    rewrite take_take, Nat.min_id.
    rewrite (take_ge (drop k ch)) by (rewrite length_drop; lia).
    rewrite (drop_ge (take k ch)) by (rewrite length_take; lia).
    rewrite (drop_ge (drop k ch)) by (rewrite length_drop; lia).
    rewrite take_0, !app_nil_r, take_drop.
    cbn [d2 getRoot nextVersion setRoot root app].
    by rewrite (plug_plug _ _ _ _ _ HR2), HR1. }
  set (d3 := nextVersion (setRoot d2 mainRoot R1)) in *.
  assert (Hex4 :
    execute (MoveOperation RemoveOp (Position mainRoot pp (S (length pre))) 1
               graveyardPosition) d3
    = Some (Document (root (doc s)) (Element gn ga (Element nm a [] :: gch))
              (version d3))).
  { change 1%Z with (Z.of_nat 1).
    erewrite execute_remove;
      [|exact H1|rewrite length_app; simpl; lia|exact Hg].
    rewrite take_S_middle, drop_S_middle, drop_SS_middle, <- app_assoc.
    cbn [take app d3 d2 nextVersion setRoot root].
    by rewrite (plug_plug _ _ _ _ _ HR1), (plug_same _ _ _ _ _ Hpp). }
  eexists _, _, _.
  split; [exact Hrun|].
  split; [done|].
  split.
  { erewrite SplitDelta_getReversed_run; cycle 1.
    - cbn [dls]. by apply list_lookup_middle.
    - cbn [ops operations]. apply mapM_Some.
      repeat constructor; [by apply list_lookup_middle|by apply lookup_S_middle].
    - cbn [ops dls batch_deltas doc trace length Delta__reverseDeltaClass
           dclass SplitDelta__reverseDeltaClass].
      rewrite reversedOperations_split. cbn [stickyFirst set_isSticky kind
        baseVersion seq].
      rewrite length_app. cbn [length]. rewrite Nat.add_1_r.
      reflexivity. }
  set (ops1 := ops s ++ _).
  split.
  - unfold applyDelta.
    run_with ltac:(unfold readDelta; cbn [dls];
                   rewrite list_lookup_middle
                     by (rewrite length_app; simpl; lia);
                   reflexivity).
    cbn [operations applyOperations].
    run_with ltac:(eapply Document_applyOperation_run;
                   [cbn [ops]; by apply list_lookup_middle
                   |cbn; reflexivity
                   |exact Hex3]).
    fold d3.
    run_with ltac:(eapply Document_applyOperation_run;
                   [cbn [ops]; by apply lookup_S_middle
                   |cbn; reflexivity
                   |exact Hex4]).
    reflexivity.
  - cbn [doc]. unfold nextVersion. cbn [root graveyard version].
    f_equal. unfold d3, d2. cbn. lia.
Qed.

(** C1: let [E] be an element of the document tree that is not a root, and
    [P] a position inside [E] (at any of its offsets).  [split] at [P]
    leaves [E] with the children before [P], followed by a sibling with
    [E]'s name and attributes that has the children after [P]; applying then
    the operations of the reversed delta gives back the tree of the
    document as it was, so [E] has again its name, its attributes and its
    children.  In the scenario, [<p>[a,b,c]</p>] split at offset 1 becomes
    [<p>[a]</p><p>[b,c]</p>], and the reversed delta restores
    [<p>[a,b,c]</p>]. *)
Theorem split_then_reversed_restores :
  (∀ (s : state) (pp : list nat) (i k : nat) (nm gn : string)
     (a ga : gmap string string) (ch gch : list node),
     getNodeByPath (pp ++ [i]) (root (doc s)) = Some (Element nm a ch) →
     k ≤ length ch →
     graveyard (doc s) = Element gn ga gch →
     ∃ s1 d s2 rd s3,
       split (Position mainRoot (pp ++ [i]) k) s = (Ok BatchRef, s1) ∧
       last (batch_deltas s1) = Some d ∧
       getNodeByPath (pp ++ [i]) (root (doc s1))
         = Some (Element nm a (take k ch)) ∧
       getNodeByPath (pp ++ [S i]) (root (doc s1))
         = Some (Element nm a (drop k ch)) ∧
       SplitDelta_getReversed d s1 = (Ok rd, s2) ∧
       applyDelta rd s2 = (Ok (), s3) ∧
       root (doc s3) = root (doc s) ∧
       getNodeByPath (pp ++ [i]) (root (doc s3)) = Some (Element nm a ch)) ∧
  (∃ s1 d s2 rd s3,
     split abcPosition abcState = (Ok BatchRef, s1) ∧
     last (batch_deltas s1) = Some d ∧
     root (doc s1) =
       Element "$root" ∅ [paragraph [leaf "a"]; paragraph [leaf "b"; leaf "c"]] ∧
     SplitDelta_getReversed d s1 = (Ok rd, s2) ∧
     applyDelta rd s2 = (Ok (), s3) ∧
     root (doc s3) =
       Element "$root" ∅ [paragraph [leaf "a"; leaf "b"; leaf "c"]]).
Proof.
  split.
  - intros s pp i k nm gn a ga ch gch HE Hk Hg.
    destruct (getNodeByPath_child _ _ _ _ HE) as (pn & pa & pch & Hpp & Hi).
    destruct (list_elem_of_split_length _ _ _ Hi) as (pre & post & -> & ->).
    destruct (round_trip_run s pp k pn nm gn pa a ga pre post ch gch Hpp Hk Hg)
      as (s1 & s2 & s3 & Hrun & Hb & Hrev & Happ & Hdoc).
    destruct (split_valid s (Position mainRoot (pp ++ [length pre]) k) pp
                (length pre) nm a ch eq_refl HE Hk)
      as (d1 & d2 & _ & _ & _ & _ & _ & _ & He2 & Hc2 & Hrun').
    assert (Hs1 : doc s1 = d2)
      by (rewrite Hrun in Hrun'; by injection Hrun' as ->).
    cbn [pos_root getRoot] in He2, Hc2.
    exists s1, (length (dls s)), s2, (S (length (dls s))), s3.
    split; [done|].
    split; [by rewrite Hb, last_snoc|].
    rewrite Hs1.
    split; [exact He2|].
    split; [exact Hc2|].
    split; [exact Hrev|].
    split; [exact Happ|].
    rewrite Hdoc. cbn [root]. done.
  - exists (split abcPosition abcState).2, 0,
      (SplitDelta_getReversed 0 (split abcPosition abcState).2).2, 1,
      (applyDelta 1
         (SplitDelta_getReversed 0 (split abcPosition abcState).2).2).2.
    repeat split; vm_compute; reflexivity.
Qed.

Lemma split_then_reversed_restores_witness :
  getNodeByPath ([] ++ [0]) (root (doc abcState))
    = Some (Element "p" ∅ [leaf "a"; leaf "b"; leaf "c"]) ∧
  1 ≤ length [leaf "a"; leaf "b"; leaf "c"] ∧
  graveyard (doc abcState) = Element "$graveyard" ∅ [] ∧
  ∃ s1 d s2 rd s3,
    split (Position mainRoot ([] ++ [0]) 1) abcState = (Ok BatchRef, s1) ∧
    last (batch_deltas s1) = Some d ∧
    getNodeByPath ([] ++ [0]) (root (doc s1))
      = Some (Element "p" ∅ (take 1 [leaf "a"; leaf "b"; leaf "c"])) ∧
    getNodeByPath ([] ++ [1]) (root (doc s1))
      = Some (Element "p" ∅ (drop 1 [leaf "a"; leaf "b"; leaf "c"])) ∧
    SplitDelta_getReversed d s1 = (Ok rd, s2) ∧
    applyDelta rd s2 = (Ok (), s3) ∧
    root (doc s3) = root (doc abcState) ∧
    getNodeByPath ([] ++ [0]) (root (doc s3))
      = Some (Element "p" ∅ [leaf "a"; leaf "b"; leaf "c"]).
Proof.
  split; [reflexivity|]. split; [simpl; lia|]. split; [reflexivity|].
  apply (proj1 split_then_reversed_restores abcState [] 0 1 "p" "$graveyard"
           ∅ ∅ [leaf "a"; leaf "b"; leaf "c"] []);
    [reflexivity|simpl; lia|reflexivity].
Defined.

(** ** The theorems at the scenario *)

Lemma split_root_guard_witness :
  parentPath (Position mainRoot [] 0) = [] ∧
  getRoot (doc abcState) mainRoot =
    Element "$root" ∅ [paragraph [leaf "a"; leaf "b"; leaf "c"]] ∧
  ∃ s',
    split (Position mainRoot [] 0) abcState = (Throw batch_split_root, s') ∧
    doc s' = doc abcState ∧
    ops s' = ops abcState ∧
    dls s' = dls abcState ++ [Delta SplitDelta []] ∧
    batch_deltas s' = batch_deltas abcState ++ [length (dls abcState)] ∧
    trace s' = trace abcState ++ [EvAddDelta (length (dls abcState))].
Proof.
  split; [reflexivity|]. split; [reflexivity|].
  apply (split_root_guard abcState (Position mainRoot [] 0) "$root" ∅
           [paragraph [leaf "a"; leaf "b"; leaf "c"]]); reflexivity.
Defined.

Lemma split_builds_insert_then_move_witness :
  parentPath abcPosition = [] ++ [0] ∧
  getNodeByPath (parentPath abcPosition)
    (getRoot (doc abcState) (pos_root abcPosition))
    = Some (Element "p" ∅ [leaf "a"; leaf "b"; leaf "c"]) ∧
  offset abcPosition ≤ length [leaf "a"; leaf "b"; leaf "c"] ∧
  ∃ s' d o1 o2 insert move d1,
    split abcPosition abcState = (Ok BatchRef, s') ∧
    batch_deltas s' = batch_deltas abcState ++ [d] ∧
    dls s' !! d = Some (Delta SplitDelta [o1; o2]) ∧
    ops s' !! o1 = Some insert ∧
    kind insert =
      InsertOperation (Position (pos_root abcPosition) [] 1)
        [Element "p" ∅ []] ∧
    ops s' !! o2 = Some move ∧
    kind move =
      MoveOperation MoveOp abcPosition
        (Z.of_nat (maxOffset (Element "p" ∅ [leaf "a"; leaf "b"; leaf "c"]))
         - Z.of_nat (offset abcPosition))
        (Position (pos_root abcPosition) ([] ++ [1]) 0) ∧
    applied insert (doc abcState) = Ok d1 ∧
    getNodeByPath ([] ++ [0]) (getRoot d1 (pos_root abcPosition))
      = Some (Element "p" ∅ [leaf "a"; leaf "b"; leaf "c"]) ∧
    getNodeByPath ([] ++ [1]) (getRoot d1 (pos_root abcPosition))
      = Some (Element "p" ∅ []).
Proof.
  split; [reflexivity|]. split; [reflexivity|]. split; [simpl; lia|].
  apply (split_builds_insert_then_move abcState abcPosition [] 0 "p" ∅
           [leaf "a"; leaf "b"; leaf "c"]);
    [reflexivity|reflexivity|simpl; lia].
Defined.

Lemma split_versions_and_order_witness :
  parentPath abcPosition = [] ++ [0] ∧
  getNodeByPath (parentPath abcPosition)
    (getRoot (doc abcState) (pos_root abcPosition))
    = Some (Element "p" ∅ [leaf "a"; leaf "b"; leaf "c"]) ∧
  offset abcPosition ≤ length [leaf "a"; leaf "b"; leaf "c"] ∧
  ∃ s' d o1 o2 insert move d1,
    split abcPosition abcState = (Ok BatchRef, s') ∧
    dls s' !! d = Some (Delta SplitDelta [o1; o2]) ∧
    ops s' !! o1 = Some insert ∧
    ops s' !! o2 = Some move ∧
    baseVersion insert = version (doc abcState) ∧
    applied insert (doc abcState) = Ok d1 ∧
    version d1 = S (version (doc abcState)) ∧
    baseVersion move = version d1 ∧
    isSticky move = true ∧
    applied move d1 = Ok (doc s') ∧
    trace s' = trace abcState ++
      [EvAddDelta d;
       EvAddOperation d o1; EvApplyOperation o1;
       EvAddOperation d o2; EvApplyOperation o2].
Proof.
  split; [reflexivity|]. split; [reflexivity|]. split; [simpl; lia|].
  apply (split_versions_and_order abcState abcPosition [] 0 "p" ∅
           [leaf "a"; leaf "b"; leaf "c"]);
    [reflexivity|reflexivity|simpl; lia].
Defined.

Lemma split_returns_batch_witness :
  parentPath abcPosition = [] ++ [0] ∧
  getNodeByPath (parentPath abcPosition)
    (getRoot (doc abcState) (pos_root abcPosition))
    = Some (Element "p" ∅ [leaf "a"; leaf "b"; leaf "c"]) ∧
  offset abcPosition ≤ length [leaf "a"; leaf "b"; leaf "c"] ∧
  ∃ s' d δ,
    split abcPosition abcState = (Ok BatchRef, s') ∧
    last (batch_deltas s') = Some d ∧
    dls s' !! d = Some δ ∧
    dclass δ = SplitDelta ∧
    length (operations δ) = 2 ∧
    dls abcState !! d = None.
Proof.
  split; [reflexivity|]. split; [reflexivity|]. split; [simpl; lia|].
  apply (split_returns_batch abcState abcPosition [] 0 "p" ∅
           [leaf "a"; leaf "b"; leaf "c"]);
    [reflexivity|reflexivity|simpl; lia].
Defined.

Lemma SplitDelta_getReversed_sticky_witness :
  dls abcSplitState !! 0 = Some (Delta SplitDelta [0; 1]) ∧
  dclass (Delta SplitDelta [0; 1]) = SplitDelta ∧
  Forall (λ r, is_Some (ops abcSplitState !! r))
    (operations (Delta SplitDelta [0; 1])) ∧
  operations (Delta SplitDelta [0; 1]) ≠ [] ∧
  ∃ nd s0 s' δ' first o0,
    Delta_getReversed 0 abcSplitState = (Ok nd, s0) ∧
    SplitDelta_getReversed 0 abcSplitState = (Ok nd, s') ∧
    dls s' !! nd = Some δ' ∧
    dclass δ' = MergeDelta ∧
    operations δ' !! 0 = Some first ∧
    ops s0 !! first = Some o0 ∧
    ops s' !! first = Some (set_isSticky true o0) ∧
    isSticky (set_isSticky true o0) = true ∧
    s' = State (<[first := set_isSticky true o0]> (ops s0)) (dls s0)
           (batch_deltas s0) (doc s0) (trace s0) ∧
    (∀ j r o, operations (Delta SplitDelta [0; 1]) !! j = Some r →
       ops abcSplitState !! r = Some o →
       ∃ r' o',
         operations δ' !!
           (length (operations (Delta SplitDelta [0; 1])) - 1 - j) = Some r' ∧
         ops s' !! r' = Some o' ∧
         kind o' = reversedKind (kind o)).
Proof.
  split; [reflexivity|]. split; [reflexivity|].
  split; [repeat constructor; by eexists|]. split; [discriminate|].
  apply (SplitDelta_getReversed_sticky abcSplitState 0 (Delta SplitDelta [0; 1]));
    [reflexivity|reflexivity|repeat constructor; by eexists|discriminate].
Defined.

Lemma SplitDelta_getReversed_frame_witness :
  dls abcSplitState !! 0 = Some (Delta SplitDelta [0; 1]) ∧
  dclass (Delta SplitDelta [0; 1]) = SplitDelta ∧
  Forall (λ r, is_Some (ops abcSplitState !! r))
    (operations (Delta SplitDelta [0; 1])) ∧
  operations (Delta SplitDelta [0; 1]) ≠ [] ∧
  ∃ nd s0 s' δ' first,
    Delta_getReversed 0 abcSplitState = (Ok nd, s0) ∧
    SplitDelta_getReversed 0 abcSplitState = (Ok nd, s') ∧
    dls s0 !! nd = Some δ' ∧
    operations δ' !! 0 = Some first ∧
    dls s' = dls s0 ∧
    batch_deltas s' = batch_deltas s0 ∧
    doc s' = doc s0 ∧
    trace s' = trace s0 ∧
    length (ops s') = length (ops s0) ∧
    (∀ r, r ≠ first → ops s' !! r = ops s0 !! r) ∧
    kind <$> ops s' !! first = kind <$> ops s0 !! first ∧
    baseVersion <$> ops s' !! first = baseVersion <$> ops s0 !! first ∧
    (∀ r, r ∈ operations (Delta SplitDelta [0; 1]) →
       ops s' !! r = ops abcSplitState !! r) ∧
    dls s' !! 0 = Some (Delta SplitDelta [0; 1]).
Proof.
  split; [reflexivity|]. split; [reflexivity|].
  split; [repeat constructor; by eexists|]. split; [discriminate|].
  apply (SplitDelta_getReversed_frame abcSplitState 0 (Delta SplitDelta [0; 1]));
    [reflexivity|reflexivity|repeat constructor; by eexists|discriminate].
Defined.

Lemma SplitDelta_empty_reversal_witness :
  dls abcRootSplitState !! 0 = Some (Delta SplitDelta []) ∧
  SplitDelta_position abcRootSplitState (Delta SplitDelta []) = js_null ∧
  ∃ nd s',
    SplitDelta_getReversed 0 abcRootSplitState = (Ok nd, s') ∧
    dls s' !! nd = Some (Delta MergeDelta []) ∧
    Delta_position s' (Delta MergeDelta []) = js_null ∧
    ops s' = ops abcRootSplitState ∧
    doc s' = doc abcRootSplitState ∧
    (∀ d', d' < length (dls abcRootSplitState) →
       dls s' !! d' = dls abcRootSplitState !! d').
Proof.
  split; [reflexivity|].
  apply (SplitDelta_empty_reversal abcRootSplitState 0). reflexivity.
Defined.

(** ** Every outcome of [split] *)

Lemma bind_throw {A B} (m : M A) (f : A → M B) (s s' : state) (e : error) :
  m s = (Throw e, s') → (m ≫= f) s = (Throw e, s').
Proof. intros H. unfold mbind, M_bind. by rewrite H. Qed.

Lemma unsnoc_None {A} (l : list A) : unsnoc l = None → l = [].
Proof.
  destruct l as [|x l]; [done|]. simpl. by destruct (unsnoc l) as [[? ?]|].
Qed.

Lemma unsnoc_Some {A} (l front : list A) (x : A) :
  unsnoc l = Some (front, x) → l = front ++ [x].
Proof.
  revert front. induction l as [|y l IH]; intros front; simpl; [done|].
  destruct (unsnoc l) as [[f z]|] eqn:E.
  - intros [= <- <-]. by rewrite (IH f eq_refl).
  - intros [= <- <-]. by rewrite (unsnoc_None l E).
Qed.

Lemma Position_parent_throw (p : position) (s : state) :
  (∀ nm a ch, getNodeByPath (parentPath p) (getRoot (doc s) (pos_root p))
              ≠ Some (Element nm a ch)) →
  Position_parent p s = (Throw TypeError, s).
Proof.
  intros H. unfold Position_parent.
  destruct (getNodeByPath _ _) as [[|nm a ch]|]; try done.
  by destruct (H nm a ch).
Qed.

Lemma Document_applyOperation_throw (op : nat) (o : operation) (s : state) :
  ops s !! op = Some o →
  baseVersion o = version (doc s) →
  execute (kind o) (doc s) = None →
  Document_applyOperation op s = (Throw InvalidOperation, s).
Proof.
  intros Hop Hv He. unfold Document_applyOperation, applied.
  rewrite Hop, decide_True by done. by rewrite He.
Qed.

(** [split] at an offset past the end of the parent: the move operation is
    built with a negative [howMany] and is not applied. *)
Lemma split_beyond_run (s : state) (r : rootName) (pp : list nat) (k : nat)
    (pn nm : string) (pa a : gmap string string) (pre post ch : list node) :
  getNodeByPath pp (getRoot (doc s) r)
    = Some (Element pn pa (pre ++ Element nm a ch :: post)) →
  length ch < k →
  ∃ d1 move,
    version d1 = S (version (doc s)) ∧
    split (Position r (pp ++ [length pre]) k) s =
      (Throw InvalidOperation,
       State
         (ops s ++ [splitInsert r pp (length pre) nm a (version (doc s)); move])
         (dls s ++ [Delta SplitDelta [length (ops s); S (length (ops s))]])
         (batch_deltas s ++ [length (dls s)])
         d1
         (trace s ++
            [EvAddDelta (length (dls s));
             EvAddOperation (length (dls s)) (length (ops s));
             EvApplyOperation (length (ops s));
             EvAddOperation (length (dls s)) (S (length (ops s)))])).
Proof.
  intros Hpp Hk.
  destruct (split_run s r pp 0 pn nm pa a pre post ch Hpp (Nat.le_0_l _))
    as (R1 & _ & HR1 & _ & Hex1 & _ & _).
  cbn [splitInsert kind] in Hex1.
  pose proof (plug_result _ _ _ _ _ _ _ Hpp HR1) as Hpp1.
  assert (HE : getNodeByPath (pp ++ [length pre]) (getRoot (doc s) r)
               = Some (Element nm a ch)).
  { rewrite (getNodeByPath_snoc _ _ _ _ _ _ Hpp). by apply list_lookup_middle. }
  set (d1 := nextVersion (setRoot (doc s) r R1)).
  assert (Hd1 : getNodeByPath pp (getRoot d1 r) =
    Some (Element pn pa (pre ++ Element nm a ch :: Element nm a [] :: post))).
  { unfold d1. by rewrite getRoot_nextVersion, getRoot_setRoot. }
  assert (HE1 : getNodeByPath (pp ++ [length pre]) (getRoot d1 r)
                = Some (Element nm a ch)).
  { rewrite (getNodeByPath_snoc _ _ _ _ _ _ Hd1). by apply list_lookup_middle. }
  assert (Hv1 : version d1 = S (version (doc s))) by (unfold d1; by destruct r).
  exists d1. eexists. split; [exact Hv1|].
  unfold split.
  run. run.
  run_with ltac:(apply Position_parent_run; [exact HE|by eexists _, _, _]).
  cbn [parentPath pos_root offset]. rewrite unsnoc_snoc.
  run. run.
  run_with ltac:(unfold Delta_addOperation; cbn [dls];
                 rewrite list_lookup_middle by done; reflexivity).
  cbn [dclass operations app Node_name getAttributes].
  rewrite insert_middle.
  run_with ltac:(eapply Document_applyOperation_run;
                 [by apply list_lookup_middle|reflexivity|exact Hex1]).
  fold d1.
  run_with ltac:(apply Position_parent_run; [exact HE1|by eexists _, _, _]).
  run. run.
  rewrite Hv1, <- app_assoc, length_app. cbn [app length maxOffset getChildren].
  rewrite Nat.add_1_r.
  run_with ltac:(unfold assign_isSticky; cbn [ops];
                 rewrite lookup_S_middle; reflexivity).
  rewrite insert_S_middle.
  run_with ltac:(unfold Delta_addOperation; cbn [dls];
                 rewrite list_lookup_middle by done; reflexivity).
  cbn [dclass operations app]. rewrite insert_middle.
  erewrite bind_throw; cycle 1.
  { eapply Document_applyOperation_throw;
      [apply lookup_S_middle|exact (eq_sym Hv1)|].
    cbn [set_isSticky kind execute]. rewrite decide_True by lia. done. }
  unfold splitInsert. by rewrite <- !app_assoc.
Qed.

Lemma split_root_run (s : state) (r : rootName) (k : nat) (nm : string)
    (a : gmap string string) (ch : list node) :
  getRoot (doc s) r = Element nm a ch →
  split (Position r [] k) s =
    (Throw batch_split_root,
     State (ops s) (dls s ++ [Delta SplitDelta []])
       (batch_deltas s ++ [length (dls s)]) (doc s)
       (trace s ++ [EvAddDelta (length (dls s))])).
Proof.
  intros Hr. unfold split. run. run.
  run_with ltac:(apply Position_parent_run;
                 [cbn; rewrite Hr; reflexivity|by eexists _, _, _]).
  reflexivity.
Qed.

Lemma split_unresolved_run (s : state) (p : position) :
  (∀ nm a ch, getNodeByPath (parentPath p) (getRoot (doc s) (pos_root p))
              ≠ Some (Element nm a ch)) →
  split p s =
    (Throw TypeError,
     State (ops s) (dls s ++ [Delta SplitDelta []])
       (batch_deltas s ++ [length (dls s)]) (doc s)
       (trace s ++ [EvAddDelta (length (dls s))])).
Proof.
  intros H. unfold split. run. run.
  erewrite bind_throw; [reflexivity|].
  by apply Position_parent_throw.
Qed.

(** What holds of [split] whatever way it ends. *)
Lemma split_outcome (p : position) (s : state) :
  ∃ r s' new,
    split p s = (r, s') ∧
    batch_deltas s' = batch_deltas s ++ [length (dls s)] ∧
    dls s' =
      dls s ++ [Delta SplitDelta (seq (length (ops s)) (length new))] ∧
    ops s' = ops s ++ new ∧
    length new ≤ 2 ∧
    r ≠ Throw VersionMismatch ∧
    (r = Throw batch_split_root → parentPath p = []) ∧
    version (doc s) ≤ version (doc s') ≤ version (doc s) + length new.
Proof.
  destruct p as [r q k].
  destruct (getNodeByPath q (getRoot (doc s) r)) as [e|] eqn:HE.
  2: { eexists _, _, []. split.
       { apply split_unresolved_run. cbn. intros nm a ch. by rewrite HE. }
       cbn. rewrite app_nil_r. repeat split; (done || lia). }
  destruct e as [data a|nm a ch].
  { eexists _, _, []. split.
    { apply split_unresolved_run. cbn. intros nm a' ch. by rewrite HE. }
    cbn. rewrite app_nil_r. repeat split; (done || lia). }
  destruct (unsnoc q) as [[pp i]|] eqn:Hq.
  - apply unsnoc_Some in Hq as ->.
    destruct (getNodeByPath_child _ _ _ _ HE) as (pn & pa & pch & Hpp & Hi).
    destruct (list_elem_of_split_length _ _ _ Hi) as (pre & post & -> & ->).
    destruct (decide (k ≤ length ch)) as [Hk|Hk].
    + destruct (split_run s r pp k pn nm pa a pre post ch Hpp Hk)
        as (R1 & R2 & _ & _ & _ & _ & Hrun).
      eexists _, _, [_; _]. split; [exact Hrun|].
      cbn. repeat split; try done; try lia.
      * rewrite !version_setRoot. lia.
      * rewrite !version_setRoot. lia.
    + destruct (split_beyond_run s r pp k pn nm pa a pre post ch Hpp)
        as (d1 & move & Hv1 & Hrun); [lia|].
      eexists _, _, [_; _]. split; [exact Hrun|].
      cbn. repeat split; try done; lia.
  - apply unsnoc_None in Hq as ->. cbn in HE. injection HE as HE.
    eexists _, _, []. split; [by apply (split_root_run s r k nm a ch)|].
    cbn. rewrite app_nil_r. repeat split; (done || lia).
Qed.

(** ** What [split] does whatever way it ends *)

(** X1: every call of [split] -- whether it returns, or throws the root
    error or another one -- leaves exactly one more delta in the batch, a
    [SplitDelta] placed last that holds at most two operations; the deltas
    and the operation objects that existed before the call are as they
    were. *)
Theorem split_always_adds_one_delta (p : position) (s : state) :
  batch_deltas (split p s).2 = batch_deltas s ++ [length (dls s)] ∧
  (∃ os, dls (split p s).2 = dls s ++ [Delta SplitDelta os] ∧
         length os ≤ 2) ∧
  (∀ d δ, dls s !! d = Some δ → dls (split p s).2 !! d = Some δ) ∧
  (∀ r o, ops s !! r = Some o → ops (split p s).2 !! r = Some o).
Proof.
  destruct (split_outcome p s)
    as (r & s' & new & -> & Hb & Hd & Ho & Hlen & _).
  cbn [snd]. split; [exact Hb|].
  split; [eexists; split; [exact Hd|by rewrite length_seq]|].
  split.
  - intros d δ H. rewrite Hd. by apply lookup_app_l_Some.
  - intros r' o H. rewrite Ho. by apply lookup_app_l_Some.
Qed.

(** X2: in a document whose root is an element, [split] throws
    [batch-split-root] exactly for the positions whose parent is that root:
    no other failure is reported under this name, and no position in the
    root escapes it. *)
Theorem split_root_error_iff_root (p : position) (s : state) (nm : string)
    (a : gmap string string) (ch : list node) :
  getRoot (doc s) (pos_root p) = Element nm a ch →
  (split p s).1 = Throw batch_split_root ↔ parentPath p = [].
Proof.
  intros Hr. split.
  - destruct (split_outcome p s)
      as (r & s' & new & -> & _ & _ & _ & _ & _ & Hroot & _).
    exact Hroot.
  - destruct p as [r q k]. cbn in *. intros ->.
    by rewrite (split_root_run s r k nm a ch Hr).
Qed.

Lemma split_root_error_iff_root_witness :
  getRoot (doc abcState) (pos_root (Position mainRoot [] 2)) =
    Element "$root" ∅ [paragraph [leaf "a"; leaf "b"; leaf "c"]] ∧
  ((split (Position mainRoot [] 2) abcState).1 = Throw batch_split_root
   ↔ parentPath (Position mainRoot [] 2) = []).
Proof.
  split; [reflexivity|].
  apply (split_root_error_iff_root (Position mainRoot [] 2) abcState "$root" ∅
           [paragraph [leaf "a"; leaf "b"; leaf "c"]]).
  reflexivity.
Defined.

(** X3: [split] never fails the version check of the document: each of its
    operations is built with the version the document has when it is
    applied.  Whatever way the call ends, the document version has not gone
    down, and it has gone up by no more than the number of operations that
    the new delta holds: no operation is applied without being recorded. *)
Theorem split_never_version_mismatch (p : position) (s : state) :
  (split p s).1 ≠ Throw VersionMismatch ∧
  ∃ os,
    last (dls (split p s).2) = Some (Delta SplitDelta os) ∧
    version (doc s) ≤ version (doc (split p s).2)
      ≤ version (doc s) + length os.
Proof.
  destruct (split_outcome p s)
    as (r & s' & new & -> & _ & Hd & _ & _ & Hvm & _ & Hv).
  cbn [fst snd]. split; [exact Hvm|].
  eexists. split; [by rewrite Hd, last_snoc|].
  by rewrite length_seq.
Qed.

(** ** The delta that [split] leaves, and the tree around the split *)

(** X4: after [split] at a valid position whose parent is not a root, the
    accessors of the delta it has built agree with the call: [position] is
    the position that was passed to [split], [_cloneOperation] is the insert
    operation and [_moveOperation] the move operation, two distinct
    objects. *)
Theorem split_delta_accessors (s : state) (p : position) (pp : list nat)
    (i : nat) (nm : string) (a : gmap string string) (ch : list node) :
  parentPath p = pp ++ [i] →
  getNodeByPath (parentPath p) (getRoot (doc s) (pos_root p))
    = Some (Element nm a ch) →
  offset p ≤ length ch →
  ∃ s' d δ clone move oc om,
    split p s = (Ok BatchRef, s') ∧
    last (batch_deltas s') = Some d ∧
    dls s' !! d = Some δ ∧
    SplitDelta_position s' δ = js_pos p ∧
    SplitDelta__cloneOperation δ = Some clone ∧
    SplitDelta__moveOperation δ = Some move ∧
    clone ≠ move ∧
    ops s' !! clone = Some oc ∧
    kind oc = InsertOperation (Position (pos_root p) pp (S i))
                [Element nm a []] ∧
    ops s' !! move = Some om ∧
    Operation_sourcePosition om = js_pos p.
Proof.
  intros Hp HE Hk.
  destruct (split_valid s p pp i nm a ch Hp HE Hk)
    as (d1 & d2 & _ & _ & _ & _ & _ & _ & _ & _ & Hrun).
  eexists _, (length (dls s)), _, (length (ops s)), (S (length (ops s))), _, _.
  split; [exact Hrun|]. cbn [batch_deltas dls ops].
  split; [by rewrite last_snoc|].
  split; [by apply list_lookup_middle|].
  unfold SplitDelta_position, SplitDelta__moveOperation,
    SplitDelta__cloneOperation.
  cbn [operations lookup list_lookup ops].
  rewrite lookup_S_middle, list_lookup_middle by done.
  repeat split; done.
Qed.

Lemma split_delta_accessors_witness :
  parentPath abcPosition = [] ++ [0] ∧
  getNodeByPath (parentPath abcPosition)
    (getRoot (doc abcState) (pos_root abcPosition))
    = Some (Element "p" ∅ [leaf "a"; leaf "b"; leaf "c"]) ∧
  offset abcPosition ≤ length [leaf "a"; leaf "b"; leaf "c"] ∧
  ∃ s' d δ clone move oc om,
    split abcPosition abcState = (Ok BatchRef, s') ∧
    last (batch_deltas s') = Some d ∧
    dls s' !! d = Some δ ∧
    SplitDelta_position s' δ = js_pos abcPosition ∧
    SplitDelta__cloneOperation δ = Some clone ∧
    SplitDelta__moveOperation δ = Some move ∧
    clone ≠ move ∧
    ops s' !! clone = Some oc ∧
    kind oc = InsertOperation (Position (pos_root abcPosition) [] 1)
                [Element "p" ∅ []] ∧
    ops s' !! move = Some om ∧
    Operation_sourcePosition om = js_pos abcPosition.
Proof.
  split; [reflexivity|]. split; [reflexivity|]. split; [simpl; lia|].
  apply (split_delta_accessors abcState abcPosition [] 0 "p" ∅
           [leaf "a"; leaf "b"; leaf "c"]);
    [reflexivity|reflexivity|simpl; lia].
Defined.

Lemma plug_diverge (c x y : list nat) (i j : nat) (l : list node)
    (n n' : node) :
  i ≠ j →
  plug (c ++ i :: x) l n = Some n' →
  getNodeByPath (c ++ j :: y) n' = getNodeByPath (c ++ j :: y) n.
Proof.
  intros Hij. unfold plug. revert n n'.
  induction c as [|h c IH]; intros [|nm a ch] n'; simpl; try done.
  - destruct (ch !! i) as [c0|]; simpl; [|done].
    destruct (modifyChildren x (λ _, Some l) c0) as [c1|]; simpl; [|done].
    intros [= <-]. simpl. by rewrite list_lookup_insert_ne.
  - destruct (ch !! h) as [c0|] eqn:Hh; simpl; [|done].
    destruct (modifyChildren (c ++ i :: x) (λ _, Some l) c0) as [c1|] eqn:Hc1;
      simpl; [|done].
    intros [= <-]. simpl.
    rewrite list_lookup_insert_eq by (by eapply lookup_lt_Some). simpl.
    by apply IH.
Qed.

(** X5: what [split] changes in the tree, at a valid position [P] whose
    parent [E] is child [i] of the element at path [pp].  That element keeps
    its name and attributes and has one child more: the children before [E]
    are as they were, [E] holds its children before [P], the new element
    after it holds the rest, and the children that followed [E] have moved
    one place up.  A node on a path that leaves the path [pp] is untouched,
    and so is the other root; the document version is up by two. *)
Theorem split_tree_frame (s : state) (p : position) (pp : list nat)
    (i : nat) (pn nm : string) (pa a : gmap string string)
    (pch ch : list node) :
  parentPath p = pp ++ [i] →
  getNodeByPath pp (getRoot (doc s) (pos_root p)) = Some (Element pn pa pch) →
  pch !! i = Some (Element nm a ch) →
  offset p ≤ length ch →
  ∃ s' pch',
    split p s = (Ok BatchRef, s') ∧
    version (doc s') = S (S (version (doc s))) ∧
    (∀ r, r ≠ pos_root p → getRoot (doc s') r = getRoot (doc s) r) ∧
    getNodeByPath pp (getRoot (doc s') (pos_root p))
      = Some (Element pn pa pch') ∧
    length pch' = S (length pch) ∧
    (∀ j, j < i → pch' !! j = pch !! j) ∧
    pch' !! i = Some (Element nm a (take (offset p) ch)) ∧
    pch' !! S i = Some (Element nm a (drop (offset p) ch)) ∧
    (∀ j, i < j → pch' !! S j = pch !! j) ∧
    (∀ c x y i' j, pp = c ++ i' :: x → i' ≠ j →
       getNodeByPath (c ++ j :: y) (getRoot (doc s') (pos_root p))
       = getNodeByPath (c ++ j :: y) (getRoot (doc s) (pos_root p))).
Proof.
  destruct p as [r q k]. cbn [parentPath pos_root offset].
  intros -> Hpp Hi Hk.
  destruct (list_elem_of_split_length _ _ _ Hi) as (pre & post & -> & ->).
  destruct (split_run s r pp k pn nm pa a pre post ch Hpp Hk)
    as (R1 & R2 & _ & HR2 & _ & _ & Hrun).
  pose proof (plug_result _ _ _ _ _ _ _ Hpp HR2) as H2.
  eexists _, _. split; [exact Hrun|]. cbn [doc].
  split; [cbn; by rewrite version_setRoot|].
  split; [intros r' Hr'; by destruct r, r'|].
  rewrite !getRoot_nextVersion, getRoot_setRoot.
  split; [exact H2|].
  split; [rewrite !length_app; simpl; lia|].
  split; [intros j Hj; by rewrite !lookup_app_l by done|].
  split; [by apply list_lookup_middle|].
  split; [apply lookup_S_middle|].
  split.
  - intros j Hj. rewrite !lookup_app_r by lia.
    replace (S j - length pre) with (S (j - length pre)) by lia.
    destruct (j - length pre) as [|m] eqn:Hm; [lia|]. done.
  - intros c x y i' j -> Hij. by apply (plug_diverge c x y i' j _ _ _ Hij HR2).
Qed.

Lemma split_tree_frame_witness :
  parentPath nestedPosition = [1] ++ [0] ∧
  getNodeByPath [1] (getRoot (doc nestedState) (pos_root nestedPosition))
    = Some (Element "section" {[ "id" := "s1" ]}
              [Element "p" {[ "align" := "left" ]}
                 [leaf "a"; leaf "b"; leaf "c"];
               paragraph [leaf "d"]]) ∧
  [Element "p" {[ "align" := "left" ]} [leaf "a"; leaf "b"; leaf "c"];
   paragraph [leaf "d"]] !! 0
    = Some (Element "p" {[ "align" := "left" ]}
              [leaf "a"; leaf "b"; leaf "c"]) ∧
  offset nestedPosition ≤ length [leaf "a"; leaf "b"; leaf "c"] ∧
  ∃ s' pch',
    split nestedPosition nestedState = (Ok BatchRef, s') ∧
    version (doc s') = S (S (version (doc nestedState))) ∧
    (∀ r, r ≠ pos_root nestedPosition →
       getRoot (doc s') r = getRoot (doc nestedState) r) ∧
    getNodeByPath [1] (getRoot (doc s') (pos_root nestedPosition))
      = Some (Element "section" {[ "id" := "s1" ]} pch') ∧
    length pch' = 3 ∧
    (∀ j, j < 0 →
       pch' !! j =
       [Element "p" {[ "align" := "left" ]} [leaf "a"; leaf "b"; leaf "c"];
        paragraph [leaf "d"]] !! j) ∧
    pch' !! 0 = Some (Element "p" {[ "align" := "left" ]}
                        (take 1 [leaf "a"; leaf "b"; leaf "c"])) ∧
    pch' !! 1 = Some (Element "p" {[ "align" := "left" ]}
                        (drop 1 [leaf "a"; leaf "b"; leaf "c"])) ∧
    (∀ j, 0 < j →
       pch' !! S j =
       [Element "p" {[ "align" := "left" ]} [leaf "a"; leaf "b"; leaf "c"];
        paragraph [leaf "d"]] !! j) ∧
    (∀ c x y i' j, [1] = c ++ i' :: x → i' ≠ j →
       getNodeByPath (c ++ j :: y) (getRoot (doc s') (pos_root nestedPosition))
       = getNodeByPath (c ++ j :: y)
           (getRoot (doc nestedState) (pos_root nestedPosition))).
Proof.
  split; [reflexivity|]. split; [reflexivity|]. split; [reflexivity|].
  split; [simpl; lia|].
  apply (split_tree_frame nestedState nestedPosition [1] 0 "section" "p"
           {[ "id" := "s1" ]} {[ "align" := "left" ]}
           [Element "p" {[ "align" := "left" ]} [leaf "a"; leaf "b"; leaf "c"];
            paragraph [leaf "d"]]
           [leaf "a"; leaf "b"; leaf "c"]);
    [reflexivity|reflexivity|reflexivity|simpl; lia].
Defined.

(** X6: [split] at the end of an element, [offset = maxOffset]: the move
    operation is built for no node at all ([howMany] is 0); the element keeps
    all its children and is followed by an empty element with its name and
    attributes. *)
Theorem split_at_end (s : state) (p : position) (pp : list nat) (i : nat)
    (nm : string) (a : gmap string string) (ch : list node) :
  parentPath p = pp ++ [i] →
  getNodeByPath (parentPath p) (getRoot (doc s) (pos_root p))
    = Some (Element nm a ch) →
  offset p = maxOffset (Element nm a ch) →
  ∃ s' d δ move om,
    split p s = (Ok BatchRef, s') ∧
    last (batch_deltas s') = Some d ∧
    dls s' !! d = Some δ ∧
    SplitDelta__moveOperation δ = Some move ∧
    ops s' !! move = Some om ∧
    kind om = MoveOperation MoveOp p 0
                (Position (pos_root p) (pp ++ [S i]) 0) ∧
    getNodeByPath (pp ++ [i]) (getRoot (doc s') (pos_root p))
      = Some (Element nm a ch) ∧
    getNodeByPath (pp ++ [S i]) (getRoot (doc s') (pos_root p))
      = Some (Element nm a []).
Proof.
  intros Hp HE Hk. unfold maxOffset in Hk. simpl in Hk.
  assert (Hle : offset p ≤ length ch) by lia.
  destruct (split_valid s p pp i nm a ch Hp HE Hle)
    as (d1 & d2 & _ & _ & _ & _ & _ & _ & He2 & Hc2 & Hrun).
  eexists _, (length (dls s)), _, (S (length (ops s))), _.
  split; [exact Hrun|]. cbn [batch_deltas dls ops doc].
  split; [by rewrite last_snoc|].
  split; [by apply list_lookup_middle|].
  split; [done|].
  split; [by apply lookup_S_middle|].
  split; [cbn; by rewrite Hk, Z.sub_diag|].
  rewrite Hk, take_ge in He2 by done.
  rewrite Hk, drop_ge in Hc2 by done.
  done.
Qed.

Lemma split_at_end_witness :
  parentPath (Position mainRoot [1; 0] 3) = [1] ++ [0] ∧
  getNodeByPath (parentPath (Position mainRoot [1; 0] 3))
    (getRoot (doc nestedState) mainRoot)
    = Some (Element "p" {[ "align" := "left" ]}
              [leaf "a"; leaf "b"; leaf "c"]) ∧
  offset (Position mainRoot [1; 0] 3) =
    maxOffset (Element "p" {[ "align" := "left" ]}
                 [leaf "a"; leaf "b"; leaf "c"]) ∧
  ∃ s' d δ move om,
    split (Position mainRoot [1; 0] 3) nestedState = (Ok BatchRef, s') ∧
    last (batch_deltas s') = Some d ∧
    dls s' !! d = Some δ ∧
    SplitDelta__moveOperation δ = Some move ∧
    ops s' !! move = Some om ∧
    kind om = MoveOperation MoveOp (Position mainRoot [1; 0] 3) 0
                (Position mainRoot ([1] ++ [1]) 0) ∧
    getNodeByPath ([1] ++ [0]) (getRoot (doc s') mainRoot)
      = Some (Element "p" {[ "align" := "left" ]}
                [leaf "a"; leaf "b"; leaf "c"]) ∧
    getNodeByPath ([1] ++ [1]) (getRoot (doc s') mainRoot)
      = Some (Element "p" {[ "align" := "left" ]} []).
Proof.
  split; [reflexivity|]. split; [reflexivity|]. split; [reflexivity|].
  apply (split_at_end nestedState (Position mainRoot [1; 0] 3) [1] 0 "p"
           {[ "align" := "left" ]} [leaf "a"; leaf "b"; leaf "c"]);
    reflexivity.
Defined.

(** X7: [split] at the start of an element, offset 0: the move operation is
    built for all the children ([howMany] is [maxOffset]); the element is
    left empty and its children are in the new element that follows it. *)
Theorem split_at_start (s : state) (p : position) (pp : list nat) (i : nat)
    (nm : string) (a : gmap string string) (ch : list node) :
  parentPath p = pp ++ [i] →
  getNodeByPath (parentPath p) (getRoot (doc s) (pos_root p))
    = Some (Element nm a ch) →
  offset p = 0 →
  ∃ s' d δ move om,
    split p s = (Ok BatchRef, s') ∧
    last (batch_deltas s') = Some d ∧
    dls s' !! d = Some δ ∧
    SplitDelta__moveOperation δ = Some move ∧
    ops s' !! move = Some om ∧
    kind om = MoveOperation MoveOp p (Z.of_nat (maxOffset (Element nm a ch)))
                (Position (pos_root p) (pp ++ [S i]) 0) ∧
    getNodeByPath (pp ++ [i]) (getRoot (doc s') (pos_root p))
      = Some (Element nm a []) ∧
    getNodeByPath (pp ++ [S i]) (getRoot (doc s') (pos_root p))
      = Some (Element nm a ch).
Proof.
  intros Hp HE Hk.
  assert (Hle : offset p ≤ length ch) by lia.
  destruct (split_valid s p pp i nm a ch Hp HE Hle)
    as (d1 & d2 & _ & _ & _ & _ & _ & _ & He2 & Hc2 & Hrun).
  eexists _, (length (dls s)), _, (S (length (ops s))), _.
  split; [exact Hrun|]. cbn [batch_deltas dls ops doc].
  split; [by rewrite last_snoc|].
  split; [by apply list_lookup_middle|].
  split; [done|].
  split; [by apply lookup_S_middle|].
  split; [cbn; rewrite Hk; f_equal; lia|].
  rewrite Hk, take_0 in He2. rewrite Hk, drop_0 in Hc2.
  done.
Qed.

Lemma split_at_start_witness :
  parentPath (Position mainRoot [1; 0] 0) = [1] ++ [0] ∧
  getNodeByPath (parentPath (Position mainRoot [1; 0] 0))
    (getRoot (doc nestedState) mainRoot)
    = Some (Element "p" {[ "align" := "left" ]}
              [leaf "a"; leaf "b"; leaf "c"]) ∧
  offset (Position mainRoot [1; 0] 0) = 0 ∧
  ∃ s' d δ move om,
    split (Position mainRoot [1; 0] 0) nestedState = (Ok BatchRef, s') ∧
    last (batch_deltas s') = Some d ∧
    dls s' !! d = Some δ ∧
    SplitDelta__moveOperation δ = Some move ∧
    ops s' !! move = Some om ∧
    kind om = MoveOperation MoveOp (Position mainRoot [1; 0] 0)
                (Z.of_nat (maxOffset (Element "p" {[ "align" := "left" ]}
                                        [leaf "a"; leaf "b"; leaf "c"])))
                (Position mainRoot ([1] ++ [1]) 0) ∧
    getNodeByPath ([1] ++ [0]) (getRoot (doc s') mainRoot)
      = Some (Element "p" {[ "align" := "left" ]} []) ∧
    getNodeByPath ([1] ++ [1]) (getRoot (doc s') mainRoot)
      = Some (Element "p" {[ "align" := "left" ]}
                [leaf "a"; leaf "b"; leaf "c"]).
Proof.
  split; [reflexivity|]. split; [reflexivity|]. split; [reflexivity|].
  apply (split_at_start nestedState (Position mainRoot [1; 0] 0) [1] 0 "p"
           {[ "align" := "left" ]} [leaf "a"; leaf "b"; leaf "c"]);
    reflexivity.
Defined.

(** ** More on reversal *)




(** X9: the reversal of the delta that [split] has just built, at a valid
    position [P] whose parent is child [i] of the element at [pp].  It is a
    [MergeDelta] of two operations: a sticky move of as many nodes as the
    split moved, from offset 0 of the element at [i + 1] back to [P], and
    the removal of that one element; they expect the two versions that
    follow the split. *)
Theorem split_reversed_is_merge (s : state) (p : position) (pp : list nat)
    (i : nat) (nm : string) (a : gmap string string) (ch : list node) :
  parentPath p = pp ++ [i] →
  getNodeByPath (parentPath p) (getRoot (doc s) (pos_root p))
    = Some (Element nm a ch) →
  offset p ≤ length ch →
  ∃ s1 d s2 rd back remove,
    split p s = (Ok BatchRef, s1) ∧
    last (batch_deltas s1) = Some d ∧
    SplitDelta_getReversed d s1 = (Ok rd, s2) ∧
    dls s2 !! rd = Some (Delta MergeDelta [back; remove]) ∧
    ops s2 !! back =
      Some (Operation
              (MoveOperation MoveOp (Position (pos_root p) (pp ++ [S i]) 0)
                 (Z.of_nat (maxOffset (Element nm a ch))
                  - Z.of_nat (offset p))
                 p)
              (version (doc s) + 2) true) ∧
    ops s2 !! remove =
      Some (Operation
              (MoveOperation RemoveOp (Position (pos_root p) pp (S i)) 1
                 graveyardPosition)
              (version (doc s) + 3) false) ∧
    version (doc s2) = version (doc s) + 2.
Proof.
  intros Hp HE Hk. destruct p as [r q k]. cbn [parentPath pos_root offset] in *.
  subst q.
  destruct (split_valid s (Position r (pp ++ [i]) k) pp i nm a ch eq_refl HE Hk)
    as (d1 & d2 & _ & _ & _ & Hv2 & _ & _ & _ & _ & Hrun).
  cbn [parentPath pos_root offset] in Hrun.
  replace (Z.of_nat (length ch) - Z.of_nat k)%Z
    with (Z.of_nat (length ch - k)) in Hrun by lia.
  eexists _, (length (dls s)), _, (S (length (dls s))), _, _.
  split; [exact Hrun|]. cbn [batch_deltas].
  split; [by rewrite last_snoc|].
  split.
  { erewrite SplitDelta_getReversed_run; cycle 1.
    - cbn [dls]. by apply list_lookup_middle.
    - cbn [ops operations]. apply mapM_Some.
      repeat constructor; [by apply list_lookup_middle|by apply lookup_S_middle].
    - cbn [ops dls batch_deltas doc trace length Delta__reverseDeltaClass
           dclass SplitDelta__reverseDeltaClass].
      rewrite reversedOperations_split. cbn [stickyFirst set_isSticky kind
        baseVersion seq].
      rewrite (length_app (dls s)). cbn [length]. rewrite Nat.add_1_r.
      reflexivity. }
  cbn [dls ops doc].
  split; [apply list_lookup_middle; rewrite length_app; simpl; lia|].
  replace (Z.of_nat (maxOffset (Element nm a ch)) - Z.of_nat k)%Z
    with (Z.of_nat (length ch - k)) by (unfold maxOffset; simpl; lia).
  replace (version (doc s) + 2) with (S (S (version (doc s)))) by lia.
  replace (version (doc s) + 3) with (S (S (S (version (doc s))))) by lia.
  split; [by apply list_lookup_middle|].
  split; [apply lookup_S_middle|].
  exact Hv2.
Qed.

Lemma split_reversed_is_merge_witness :
  parentPath nestedPosition = [1] ++ [0] ∧
  getNodeByPath (parentPath nestedPosition)
    (getRoot (doc nestedState) (pos_root nestedPosition))
    = Some (Element "p" {[ "align" := "left" ]}
              [leaf "a"; leaf "b"; leaf "c"]) ∧
  offset nestedPosition ≤ length [leaf "a"; leaf "b"; leaf "c"] ∧
  ∃ s1 d s2 rd back remove,
    split nestedPosition nestedState = (Ok BatchRef, s1) ∧
    last (batch_deltas s1) = Some d ∧
    SplitDelta_getReversed d s1 = (Ok rd, s2) ∧
    dls s2 !! rd = Some (Delta MergeDelta [back; remove]) ∧
    ops s2 !! back =
      Some (Operation
              (MoveOperation MoveOp
                 (Position (pos_root nestedPosition) ([1] ++ [1]) 0)
                 (Z.of_nat (maxOffset (Element "p" {[ "align" := "left" ]}
                                         [leaf "a"; leaf "b"; leaf "c"]))
                  - Z.of_nat (offset nestedPosition))
                 nestedPosition)
              (version (doc nestedState) + 2) true) ∧
    ops s2 !! remove =
      Some (Operation
              (MoveOperation RemoveOp
                 (Position (pos_root nestedPosition) [1] 1) 1
                 graveyardPosition)
              (version (doc nestedState) + 3) false) ∧
    version (doc s2) = version (doc nestedState) + 2.
Proof.
  split; [reflexivity|]. split; [reflexivity|]. split; [simpl; lia|].
  apply (split_reversed_is_merge nestedState nestedPosition [1] 0 "p"
           {[ "align" := "left" ]} [leaf "a"; leaf "b"; leaf "c"]);
    [reflexivity|reflexivity|simpl; lia].
Defined.

(** ** Calls in sequence *)

Lemma applyOperations_frame (refs : list nat) (s s' : state)
    (r : result unit) :
  applyOperations refs s = (r, s') →
  ops s' = ops s ∧ dls s' = dls s ∧ batch_deltas s' = batch_deltas s.
Proof.
  revert s. induction refs as [|o refs IH]; intros s; simpl.
  - by intros [= <- <-].
  - unfold mbind, M_bind, Document_applyOperation.
    destruct (ops s !! o) as [op|]; [|by intros [= <- <-]].
    destruct (applied op (doc s)) as [d'|e]; [|by intros [= <- <-]].
    intros H. by destruct (IH _ H) as (-> & -> & ->).
Qed.

Lemma applyDelta_frame (d : nat) (s s' : state) (r : result unit) :
  applyDelta d s = (r, s') →
  ops s' = ops s ∧ dls s' = dls s ∧ batch_deltas s' = batch_deltas s.
Proof.
  unfold applyDelta, mbind, M_bind, readDelta.
  destruct (dls s !! d) as [δ|]; [|by intros [= <- <-]].
  apply applyOperations_frame.
Qed.

Lemma SplitDelta_getReversed_frame_state (d : nat) (s s' : state)
    (r : result nat) :
  SplitDelta_getReversed d s = (r, s') →
  batch_deltas s' = batch_deltas s ∧ doc s' = doc s ∧
  length (dls s) ≤ length (dls s').
Proof.
  unfold SplitDelta_getReversed, mbind, M_bind, Delta_getReversed, readDelta,
    assign_isSticky, mret, M_ret.
  destruct (dls s !! d) as [δ|]; [|by intros [= <- <-]].
  destruct (mapM _ (operations δ)) as [os|]; [|by intros [= <- <-]].
  cbn [dls ops].
  destruct (_ !! length (dls s)) as [δ'|]; [|intros [= <- <-]; cbn;
    rewrite length_app; repeat split; lia].
  destruct (operations δ') as [|first rest];
    [intros [= <- <-]; cbn; rewrite length_app; repeat split; lia|].
  destruct (_ !! first);
    intros [= <- <-]; cbn; rewrite length_app; repeat split; lia.
Qed.

(** X10: two calls of [split] in a row at the same valid position [P], as
    chaining allows.  Both succeed; the batch gets two deltas, in the order
    of the calls, and the document is four versions on.  The second call
    finds [P] at the end of its parent: the parent keeps the children it had
    before [P], an empty element comes right after it, and the element that
    the first call made has moved one place up. *)
Theorem split_twice (s : state) (p : position) (pp : list nat)
    (i : nat) (pn nm : string) (pa a : gmap string string)
    (pch ch : list node) :
  parentPath p = pp ++ [i] →
  getNodeByPath pp (getRoot (doc s) (pos_root p)) = Some (Element pn pa pch) →
  pch !! i = Some (Element nm a ch) →
  offset p ≤ length ch →
  ∃ s1 s2 pch2,
    split p s = (Ok BatchRef, s1) ∧
    split p s1 = (Ok BatchRef, s2) ∧
    batch_deltas s2 =
      batch_deltas s ++ [length (dls s); S (length (dls s))] ∧
    dls s2 !! length (dls s) =
      Some (Delta SplitDelta [length (ops s); S (length (ops s))]) ∧
    dls s2 !! S (length (dls s)) =
      Some (Delta SplitDelta
              [S (S (length (ops s))); S (S (S (length (ops s))))]) ∧
    version (doc s2) = version (doc s) + 4 ∧
    getNodeByPath pp (getRoot (doc s2) (pos_root p))
      = Some (Element pn pa pch2) ∧
    length pch2 = S (S (length pch)) ∧
    pch2 !! i = Some (Element nm a (take (offset p) ch)) ∧
    pch2 !! S i = Some (Element nm a []) ∧
    pch2 !! S (S i) = Some (Element nm a (drop (offset p) ch)).
Proof.
  destruct p as [r q k]. cbn [parentPath pos_root offset].
  intros -> Hpp Hi Hk.
  destruct (list_elem_of_split_length _ _ _ Hi) as (pre & post & -> & ->).
  destruct (split_run s r pp k pn nm pa a pre post ch Hpp Hk)
    as (R1 & R2 & _ & HR2 & _ & _ & Hrun).
  pose proof (plug_result _ _ _ _ _ _ _ Hpp HR2) as H2.
  set (s1 := State _ _ _ _ _) in Hrun.
  assert (Hpp1 : getNodeByPath pp (getRoot (doc s1) r) =
    Some (Element pn pa
            (pre ++ Element nm a (take k ch)
               :: (Element nm a (drop k ch) :: post)))).
  { unfold s1. cbn [doc]. by rewrite !getRoot_nextVersion, getRoot_setRoot. }
  assert (Hk1 : k ≤ length (take k ch)) by (rewrite length_take; lia).
  destruct (split_run s1 r pp k pn nm pa a pre
              (Element nm a (drop k ch) :: post) (take k ch) Hpp1 Hk1)
    as (R1' & R2' & _ & HR2' & _ & _ & Hrun').
  pose proof (plug_result _ _ _ _ _ _ _ Hpp1 HR2') as H2'.
  exists s1. eexists _, _.
  split; [exact Hrun|].
  split; [exact Hrun'|].
  cbn [batch_deltas dls doc].
  unfold s1. cbn [batch_deltas dls doc ops].
  split.
  { rewrite length_app, <- app_assoc. cbn [length app].
    by rewrite Nat.add_1_r. }
  split.
  { rewrite <- app_assoc. cbn [app]. by apply list_lookup_middle. }
  split.
  { rewrite length_app. cbn [length].
    replace (length (ops s) + 2) with (S (S (length (ops s)))) by lia.
    rewrite <- app_assoc. cbn [app]. apply lookup_S_middle. }
  split; [cbn; rewrite !version_setRoot; cbn; rewrite version_setRoot; lia|].
  rewrite !getRoot_nextVersion, getRoot_setRoot.
  split; [exact H2'|].
  split; [rewrite !length_app; simpl; lia|].
  rewrite take_take, Nat.min_id.
  rewrite (drop_ge (take k ch)) by (rewrite length_take; lia).
  split; [by apply list_lookup_middle|].
  split; [apply lookup_S_middle|].
  replace (pre ++ Element nm a (take k ch) :: Element nm a []
             :: Element nm a (drop k ch) :: post)
    with ((pre ++ [Element nm a (take k ch)]) ++ Element nm a []
             :: Element nm a (drop k ch) :: post)
    by (by rewrite <- app_assoc).
  replace (S (S (length pre)))
    with (S (length (pre ++ [Element nm a (take k ch)])))
    by (rewrite length_app; simpl; lia).
  apply lookup_S_middle.
Qed.

Lemma split_twice_witness :
  parentPath nestedPosition = [1] ++ [0] ∧
  getNodeByPath [1] (getRoot (doc nestedState) (pos_root nestedPosition))
    = Some (Element "section" {[ "id" := "s1" ]}
              [Element "p" {[ "align" := "left" ]}
                 [leaf "a"; leaf "b"; leaf "c"];
               paragraph [leaf "d"]]) ∧
  [Element "p" {[ "align" := "left" ]} [leaf "a"; leaf "b"; leaf "c"];
   paragraph [leaf "d"]] !! 0
    = Some (Element "p" {[ "align" := "left" ]}
              [leaf "a"; leaf "b"; leaf "c"]) ∧
  offset nestedPosition ≤ length [leaf "a"; leaf "b"; leaf "c"] ∧
  ∃ s1 s2 pch2,
    split nestedPosition nestedState = (Ok BatchRef, s1) ∧
    split nestedPosition s1 = (Ok BatchRef, s2) ∧
    batch_deltas s2 =
      batch_deltas nestedState
        ++ [length (dls nestedState); S (length (dls nestedState))] ∧
    dls s2 !! length (dls nestedState) =
      Some (Delta SplitDelta
              [length (ops nestedState); S (length (ops nestedState))]) ∧
    dls s2 !! S (length (dls nestedState)) =
      Some (Delta SplitDelta
              [S (S (length (ops nestedState)));
               S (S (S (length (ops nestedState))))]) ∧
    version (doc s2) = version (doc nestedState) + 4 ∧
    getNodeByPath [1] (getRoot (doc s2) (pos_root nestedPosition))
      = Some (Element "section" {[ "id" := "s1" ]} pch2) ∧
    length pch2 = 4 ∧
    pch2 !! 0 = Some (Element "p" {[ "align" := "left" ]}
                        (take 1 [leaf "a"; leaf "b"; leaf "c"])) ∧
    pch2 !! 1 = Some (Element "p" {[ "align" := "left" ]} []) ∧
    pch2 !! 2 = Some (Element "p" {[ "align" := "left" ]}
                        (drop 1 [leaf "a"; leaf "b"; leaf "c"])).
Proof.
  split; [reflexivity|]. split; [reflexivity|]. split; [reflexivity|].
  split; [simpl; lia|].
  apply (split_twice nestedState nestedPosition [1] 0 "section" "p"
           {[ "id" := "s1" ]} {[ "align" := "left" ]}
           [Element "p" {[ "align" := "left" ]} [leaf "a"; leaf "b"; leaf "c"];
            paragraph [leaf "d"]]
           [leaf "a"; leaf "b"; leaf "c"]);
    [reflexivity|reflexivity|reflexivity|simpl; lia].
Defined.

Lemma SplitDelta_getReversed_lengths (d nd : nat) (δ : delta) (s s' : state) :
  dls s !! d = Some δ →
  SplitDelta_getReversed d s = (Ok nd, s') →
  length (ops s') = length (ops s) + length (operations δ) ∧
  length (dls s') = S (length (dls s)).
Proof.
  intros Hd. unfold SplitDelta_getReversed, mbind, M_bind, Delta_getReversed,
    readDelta, assign_isSticky, mret, M_ret.
  rewrite Hd.
  destruct (mapM _ (operations δ)) as [os|] eqn:Hos; [|done].
  apply length_mapM in Hos.
  pose proof (length_reversedOperations os) as Hrl.
  cbn [dls ops].
  destruct (_ !! length (dls s)) as [δ'|]; [|done].
  destruct (operations δ') as [|first rest].
  - intros [= <- <-]. cbn. rewrite !length_app. simpl. lia.
  - destruct (_ !! first); [|done].
    intros [= <- <-]. cbn. rewrite length_insert, !length_app. simpl. lia.
Qed.

(** X11: the account of a split and its undo.  After [split] at a valid
    position in the document tree, [getReversed] of the new delta and the
    application of the reversed operations, the document is four versions
    on (it does not come back to the version it had), four operation
    objects and two deltas have been made, and the batch holds one delta
    more, the split: the reversed delta is not added to it. *)
Theorem split_undo_account (s : state) (pp : list nat) (i k : nat)
    (nm gn : string) (a ga : gmap string string) (ch gch : list node) :
  getNodeByPath (pp ++ [i]) (root (doc s)) = Some (Element nm a ch) →
  k ≤ length ch →
  graveyard (doc s) = Element gn ga gch →
  ∃ s1 d s2 rd s3,
    split (Position mainRoot (pp ++ [i]) k) s = (Ok BatchRef, s1) ∧
    last (batch_deltas s1) = Some d ∧
    SplitDelta_getReversed d s1 = (Ok rd, s2) ∧
    applyDelta rd s2 = (Ok (), s3) ∧
    version (doc s1) = version (doc s) + 2 ∧
    version (doc s3) = version (doc s) + 4 ∧
    batch_deltas s3 = batch_deltas s ++ [d] ∧
    rd ≠ d ∧
    length (ops s3) = length (ops s) + 4 ∧
    length (dls s3) = length (dls s) + 2.
Proof.
  intros HE Hk Hg.
  destruct (getNodeByPath_child _ _ _ _ HE) as (pn & pa & pch & Hpp & Hi).
  destruct (list_elem_of_split_length _ _ _ Hi) as (pre & post & -> & ->).
  destruct (round_trip_run s pp k pn nm gn pa a ga pre post ch gch Hpp Hk Hg)
    as (s1 & s2 & s3 & Hrun & Hb & Hrev & Happ & Hdoc).
  destruct (split_run s mainRoot pp k pn nm pa a pre post ch Hpp Hk)
    as (R1 & R2 & _ & _ & _ & _ & Hrun').
  rewrite Hrun in Hrun'. injection Hrun' as Hs1.
  assert (Hd1 : dls s1 !! length (dls s)
                = Some (Delta SplitDelta [length (ops s); S (length (ops s))]))
    by (rewrite Hs1; cbn; by apply list_lookup_middle).
  destruct (SplitDelta_getReversed_lengths _ _ _ _ _ Hd1 Hrev) as (Ho2 & Hl2).
  destruct (SplitDelta_getReversed_frame_state _ _ _ _ Hrev) as (Hb2 & _ & _).
  destruct (applyDelta_frame _ _ _ _ Happ) as (Ho3 & Hl3 & Hb3).
  exists s1, (length (dls s)), s2, (S (length (dls s))), s3.
  split; [done|].
  split; [by rewrite Hb, last_snoc|].
  split; [done|]. split; [done|].
  split; [rewrite Hs1; cbn; lia|].
  split; [by rewrite Hdoc|].
  split; [by rewrite Hb3, Hb2, Hb|].
  split; [lia|].
  split.
  - rewrite Ho3, Ho2, Hs1. cbn. rewrite length_app. simpl. lia.
  - rewrite Hl3, Hl2, Hs1. cbn. rewrite length_app. simpl. lia.
Qed.

Lemma split_undo_account_witness :
  getNodeByPath ([1] ++ [0]) (root (doc nestedState))
    = Some (Element "p" {[ "align" := "left" ]}
              [leaf "a"; leaf "b"; leaf "c"]) ∧
  1 ≤ length [leaf "a"; leaf "b"; leaf "c"] ∧
  graveyard (doc nestedState) = Element "$graveyard" ∅ [] ∧
  ∃ s1 d s2 rd s3,
    split (Position mainRoot ([1] ++ [0]) 1) nestedState = (Ok BatchRef, s1) ∧
    last (batch_deltas s1) = Some d ∧
    SplitDelta_getReversed d s1 = (Ok rd, s2) ∧
    applyDelta rd s2 = (Ok (), s3) ∧
    version (doc s1) = version (doc nestedState) + 2 ∧
    version (doc s3) = version (doc nestedState) + 4 ∧
    batch_deltas s3 = batch_deltas nestedState ++ [d] ∧
    rd ≠ d ∧
    length (ops s3) = length (ops nestedState) + 4 ∧
    length (dls s3) = length (dls nestedState) + 2.
Proof.
  split; [reflexivity|]. split; [simpl; lia|]. split; [reflexivity|].
  apply (split_undo_account nestedState [1] 0 1 "p" "$graveyard"
           {[ "align" := "left" ]} ∅ [leaf "a"; leaf "b"; leaf "c"] []);
    [reflexivity|simpl; lia|reflexivity].
Defined.
